(** * TeamService: a shallow embedding of the team / player service

    The service is a thin layer over three collaborators: a relational
    store (two TypeORM repositories), a key/value cache with optional
    time-to-live, and a CSV parser.  Every method is a computation in a
    small state-and-exception monad over a [World] that holds the tables,
    the cache, a clock and the chronological list of calls issued to the
    collaborators, so that statements such as "the store is not queried"
    are statements about the recorded calls. *)

From Stdlib Require Import ZArith List Lia Ascii.
From Stdlib Require String.
From stdpp Require Import gmap strings list fin_maps.

Local Open Scope Z_scope.

(** ** Data model *)

(** The values a cell of a parsed CSV row can have once the row is typed
    [any]: a text cell, or an absent / null property. *)
Inductive JsValue :=
| JsUndefined
| JsNull
| JsString (s : string).

(** lodash [_.isNil]: true for [null] and [undefined] only. *)
Definition isNil (v : JsValue) : bool :=
  match v with
  | JsUndefined | JsNull => true
  | JsString _ => false
  end.

(** JavaScript truthiness of an optional string ([if (name)]): a missing
    value and the empty string are both falsy. *)
Definition truthy (o : option string) : bool :=
  match o with
  | Some s => negb (String.eqb s "")
  | None => false
  end.

Module Team.
Record t := mk { id : Z; name : string; description : string }.
End Team.

Module Player.
Record t := mk { id : Z; name : string; nickname : string; team_id : Z }.
End Player.

(** Only the identity and the owning team of a support message matter
    to this service. *)
Module SupportMessage.
Record t := mk { id : Z; team_id : Z }.
End SupportMessage.

(** One object of [parseResult.data]: column name to cell. *)
Abbreviation CsvRow := (gmap string JsValue).

(** Property read [row.key]: an absent property reads as [undefined]. *)
Definition prop (row : CsvRow) (key : string) : JsValue :=
  default JsUndefined (row !! key).

(** The object literal built in [create]: [{ name, description }]. *)
Record CreateTeamDto := { dto_name : JsValue; dto_description : JsValue }.

(** [UpdateTeamDto]: every field optional. *)
Record UpdateTeamDto := {
  upd_name : option string;
  upd_description : option string
}.

(** [PaginationQueryDto]. *)
Record PaginationQueryDto := {
  page : option Z;
  page_size : option Z;
  name : option string;
  nickname : option string
}.

(** [Express.Multer.File], the two fields the service reads. *)
Record MulterFile := { originalname : string; buffer : list Byte.byte }.

(** One raw row of the statistics query. *)
Record TeamStat := {
  stat_id : Z;
  stat_name : string;
  playerCount : nat;
  supportMessageCount : nat
}.

(** What the service puts in the cache: arrays, which are truthy even
    when empty. *)
Inductive Cached :=
| CachedPlayers (rows : list Player.t)
| CachedStats (rows : list TeamStat).

Record CacheEntry := { entry_value : Cached; entry_expires : option Z }.

(** The two typed failures of the service, and the untyped ones that
    propagate from the collaborators. *)
Inductive Exception :=
| BadRequestException (message : string)
| NotFoundException (message : string)
| ParseError
| QueryFailedError
| UpdateValuesMissingError.

(** ** Query builder *)

Inductive Condition :=
| TeamIdEq (team_id : Z)
| NameLike (pattern : string)
| NicknameLike (pattern : string).

Record SelectQueryBuilder := {
  qb_where : list Condition;
  qb_skip : option Z;
  qb_take : option Z
}.

Definition createQueryBuilder : SelectQueryBuilder :=
  {| qb_where := []; qb_skip := None; qb_take := None |}.

Definition where_ (c : Condition) (qb : SelectQueryBuilder) : SelectQueryBuilder :=
  {| qb_where := [c]; qb_skip := qb_skip qb; qb_take := qb_take qb |}.

Definition andWhere (c : Condition) (qb : SelectQueryBuilder) : SelectQueryBuilder :=
  {| qb_where := qb_where qb ++ [c]; qb_skip := qb_skip qb; qb_take := qb_take qb |}.

Definition skip (n : Z) (qb : SelectQueryBuilder) : SelectQueryBuilder :=
  {| qb_where := qb_where qb; qb_skip := Some n; qb_take := qb_take qb |}.

Definition take_ (n : Z) (qb : SelectQueryBuilder) : SelectQueryBuilder :=
  {| qb_where := qb_where qb; qb_skip := qb_skip qb; qb_take := Some n |}.

(** ** The world *)

Inductive Event :=
| EParse (csv : string)
| ETeamFind
| ETeamFindOneBy (id : Z)
| ETeamSave (dtos : list CreateTeamDto)
| ETeamUpdate (id : Z) (dto : UpdateTeamDto)
| ETeamDelete (id : Z)
| EPlayerGetMany (qb : SelectQueryBuilder)
| ETeamStatsGetRawMany
| ECacheGet (key : string)
| ECacheSet (key : string) (value : Cached) (ttl : option Z)
| EConsoleLog (line : string).

(** [cache_ttl] is the default time-to-live the cache store was
    registered with, in milliseconds, 0 for none; the registration is
    outside the service, and the service never changes it. *)
Record World := {
  teams : list Team.t;
  team_seq : Z;
  players : list Player.t;
  supportMessages : list SupportMessage.t;
  cache : gmap string CacheEntry;
  cache_ttl : Z;
  now : Z;
  trace : list Event
}.

Definition emit (e : Event) (w : World) : World :=
  {| teams := teams w; team_seq := team_seq w; players := players w;
     supportMessages := supportMessages w; cache := cache w;
     cache_ttl := cache_ttl w; now := now w;
     trace := trace w ++ [e] |}.

Definition with_teams (ts : list Team.t) (seq : Z) (w : World) : World :=
  {| teams := ts; team_seq := seq; players := players w;
     supportMessages := supportMessages w; cache := cache w;
     cache_ttl := cache_ttl w; now := now w;
     trace := trace w |}.

Definition with_cache (c : gmap string CacheEntry) (w : World) : World :=
  {| teams := teams w; team_seq := team_seq w; players := players w;
     supportMessages := supportMessages w; cache := c;
     cache_ttl := cache_ttl w; now := now w;
     trace := trace w |}.

(** The clock only moves between calls. *)
Definition advance (dt : Z) (w : World) : World :=
  {| teams := teams w; team_seq := team_seq w; players := players w;
     supportMessages := supportMessages w; cache := cache w;
     cache_ttl := cache_ttl w; now := now w + dt;
     trace := trace w |}.

(** ** The monad of service methods *)

Inductive Outcome (A : Type) :=
| Return (a : A)
| Throw (e : Exception).
Arguments Return {A} a.
Arguments Throw {A} e.

Definition Promise (A : Type) : Type := World -> Outcome A * World.

#[global] Instance promise_ret : MRet Promise :=
  fun A a w => (Return a, w).

#[global] Instance promise_bind : MBind Promise :=
  fun A B f m w =>
    match m w with
    | (Return a, w') => f a w'
    | (Throw e, w') => (Throw e, w')
    end.

Definition throw {A : Type} (e : Exception) : Promise A :=
  fun w => (Throw e, w).

Definition perform (e : Event) : Promise unit :=
  fun w => (Return tt, emit e w).

Definition try_catch {A : Type} (m : Promise A) (handler : Exception -> Promise A)
  : Promise A :=
  fun w =>
    match m w with
    | (Return a, w') => (Return a, w')
    | (Throw e, w') => handler e w'
    end.

(** ** String helpers *)

(** [String.prototype.endsWith]: the last [length suffix] characters of
    [s] are compared with [suffix], character by character. *)
Definition endsWith (s suffix : string) : bool :=
  let n := String.length s in
  let k := String.length suffix in
  (k <=? n)%nat && String.eqb (String.substring (n - k) k s) suffix.

(** [Buffer.prototype.toString]: strings are kept as their UTF-8 bytes. *)
Definition toString (b : list Byte.byte) : string :=
  String.string_of_list_byte b.

(** ** Cache manager *)

(** An entry is stale once its age exceeds its time-to-live: it still
    answers at the deadline itself. *)
Definition live (t : Z) (e : CacheEntry) : bool :=
  match entry_expires e with
  | None => true
  | Some deadline => t <=? deadline
  end.

(** The deadline of an entry written at time [t]: a time-to-live of 0
    means that the entry does not expire. *)
Definition deadline_of (t ttl : Z) : option Z :=
  if ttl =? 0 then None else Some (t + ttl).

Definition cache_lookup (key : string) (w : World) : option Cached :=
  match cache w !! key with
  | Some e => if live (now w) e then Some (entry_value e) else None
  | None => None
  end.

(** [cacheManager.get(key)]; [None] is [undefined]. *)
Definition cache_get (key : string) : Promise (option Cached) :=
  fun w => (Return (cache_lookup key w), emit (ECacheGet key) w).

(** [cacheManager.set(key, value, ttl?)]; ttl in milliseconds.  A call
    without ttl takes the store's default. *)
Definition cache_set (key : string) (value : Cached) (ttl : option Z)
  : Promise unit :=
  fun w =>
    let e := {| entry_value := value;
                entry_expires := deadline_of (now w) (default (cache_ttl w) ttl) |} in
    (Return tt, with_cache (<[key := e]> (cache w)) (emit (ECacheSet key value ttl) w)).

Definition console_log (line : string) : Promise unit :=
  perform (EConsoleLog line).

(** ** Team repository *)

(** [find({ select: ['id', 'name'] })]: the projection of every row. *)
Definition team_find : Promise (list (Z * string)) :=
  fun w => (Return (map (fun t => (Team.id t, Team.name t)) (teams w)),
            emit ETeamFind w).

(** [findOneBy({ id })]: the first row with that id, or [null]. *)
Definition team_findOneBy (id : Z) : Promise (option Team.t) :=
  fun w => (Return (List.find (fun t => Team.id t =? id) (teams w)),
            emit (ETeamFindOneBy id) w).

(** Rows built for a batch of new entities, with consecutive generated
    ids; the columns are not nullable, so a nil field makes the batch
    fail. *)
Fixpoint new_rows (seq : Z) (dtos : list CreateTeamDto) : option (list Team.t) :=
  match dtos with
  | [] => Some []
  | d :: ds =>
      match dto_name d, dto_description d, new_rows (seq + 1) ds with
      | JsString n, JsString de, Some ts => Some (Team.mk seq n de :: ts)
      | _, _, _ => None
      end
  end.

(** [save(entities)]: one insert per entity, in one transaction. *)
Definition team_save (dtos : list CreateTeamDto) : Promise unit :=
  fun w =>
    let w1 := emit (ETeamSave dtos) w in
    match new_rows (team_seq w) dtos with
    | Some ts =>
        (Return tt,
         with_teams (teams w ++ ts) (team_seq w + Z.of_nat (length ts)) w1)
    | None => (Throw QueryFailedError, w1)
    end.

Definition patch (dto : UpdateTeamDto) (t : Team.t) : Team.t :=
  Team.mk (Team.id t)
          (default (Team.name t) (upd_name dto))
          (default (Team.description t) (upd_description dto)).

(** A patch that provides no column at all. *)
Definition no_values (dto : UpdateTeamDto) : bool :=
  match upd_name dto, upd_description dto with
  | None, None => true
  | _, _ => false
  end.

(** [update({ id }, dto)]: sets the provided columns on the rows with
    that id; a patch without any value is refused before a statement
    is run. *)
Definition team_update (id : Z) (dto : UpdateTeamDto) : Promise unit :=
  fun w =>
    let w1 := emit (ETeamUpdate id dto) w in
    if no_values dto then (Throw UpdateValuesMissingError, w1)
    else
      (Return tt,
       with_teams (map (fun t => if Team.id t =? id then patch dto t else t) (teams w))
                  (team_seq w) w1).

(** [delete({ id })]: removes the rows with that id. *)
Definition team_delete (id : Z) : Promise unit :=
  fun w =>
    (Return tt,
     with_teams (List.filter (fun t => negb (Team.id t =? id)) (teams w))
                (team_seq w) (emit (ETeamDelete id) w)).

(** ** Statistics query *)

Record JoinedRow := {
  j_team : Team.t;
  j_player : option Player.t;
  j_message : option SupportMessage.t
}.

(** The right side of a left join for one left row: the matching rows,
    or a single all-null row when nothing matches. *)
Definition left_join {A : Type} (matching : list A) : list (option A) :=
  match matching with
  | [] => [None]
  | _ => map Some matching
  end.

Definition players_of (team : Z) (w : World) : list Player.t :=
  List.filter (fun p => Player.team_id p =? team) (players w).

Definition messages_of (team : Z) (w : World) : list SupportMessage.t :=
  List.filter (fun s => SupportMessage.team_id s =? team) (supportMessages w).

(** The joined rows of one team: every pairing of one of its players
    (or null) with one of its support messages (or null). *)
Definition rows_of_team (w : World) (t : Team.t) : list JoinedRow :=
  flat_map (fun p =>
    map (fun s => {| j_team := t; j_player := p; j_message := s |})
        (left_join (messages_of (Team.id t) w)))
    (left_join (players_of (Team.id t) w)).

(** team LEFT JOIN player LEFT JOIN supportMessage, both on the team id. *)
Definition stats_join (w : World) : list JoinedRow :=
  flat_map (rows_of_team w) (teams w).

(** The distinct values of a column, in order of first appearance. *)
Fixpoint distinct (l : list Z) : list Z :=
  match l with
  | [] => []
  | x :: l' => x :: List.filter (fun y => negb (y =? x)) (distinct l')
  end.

(** [COUNT(DISTINCT col)]: nulls are not counted. *)
Definition count_distinct (col : list (option Z)) : nat :=
  length (distinct (omap (fun x => x) col)).

Definition aggregate (key : Z) (rows : list JoinedRow) : option TeamStat :=
  let group := List.filter (fun r => Team.id (j_team r) =? key) rows in
  match group with
  | [] => None
  | r :: _ =>
      Some {| stat_id := key;
              stat_name := Team.name (j_team r);
              playerCount :=
                count_distinct (map (fun r => Player.id <$> j_player r) group);
              supportMessageCount :=
                count_distinct (map (fun r => SupportMessage.id <$> j_message r) group) |}
  end.

(** GROUP BY team.id *)
Definition group_by_team (rows : list JoinedRow) : list TeamStat :=
  omap (fun key => aggregate key rows)
       (distinct (map (fun r => Team.id (j_team r)) rows)).

Definition team_stats_getRawMany : Promise (list TeamStat) :=
  fun w => (Return (group_by_team (stats_join w)), emit ETeamStatsGetRawMany w).

(** ** The service *)

Section TeamService.

(** papaparse's [parse] with [header: true, skipEmptyLines: true]: the
    data rows of the text, or [None] when it throws. *)
Variable parse : string -> option (list CsvRow).

(** The store's [LIKE] operator: [sql_like subject pattern]. *)
Variable sql_like : string -> string -> bool.

Definition papa_parse (csvContent : string) : Promise (list CsvRow) :=
  fun w =>
    match parse csvContent with
    | Some data => (Return data, emit (EParse csvContent) w)
    | None => (Throw ParseError, emit (EParse csvContent) w)
    end.

(** *** Player repository *)

Definition holds (p : Player.t) (c : Condition) : bool :=
  match c with
  | TeamIdEq team => Player.team_id p =? team
  | NameLike pattern => sql_like (Player.name p) pattern
  | NicknameLike pattern => sql_like (Player.nickname p) pattern
  end.

(** The rows a built query selects: WHERE, then OFFSET, then LIMIT, over
    the table in its stored order.  OFFSET and LIMIT are meant for
    non-negative arguments, which is what positive pages produce. *)
Definition select (qb : SelectQueryBuilder) (rows : list Player.t) : list Player.t :=
  let hits := List.filter (fun p => forallb (holds p) (qb_where qb)) rows in
  let rest :=
    match qb_skip qb with
    | Some n => drop (Z.to_nat n) hits
    | None => hits
    end in
  match qb_take qb with
  | Some n => take (Z.to_nat n) rest
  | None => rest
  end.

Definition getMany (qb : SelectQueryBuilder) : Promise (list Player.t) :=
  fun w => (Return (select qb (players w)), emit (EPlayerGetMany qb) w).

(** *** Team methods *)

Definition findAll : Promise (list (Z * string)) :=
  team_find.

Definition verifyTeamById (id : Z) : Promise Team.t :=
  team ← team_findOneBy id;
  match team with
  | None => throw (NotFoundException "존재하지 않는 팀입니다.")
  | Some t => mret t
  end.

Definition findOne (id : Z) : Promise Team.t :=
  verifyTeamById id.

(** The validation loop of [create]: the first row with a nil [name] or
    [description] throws. *)
Fixpoint validate (teamsData : list CsvRow) : Promise unit :=
  match teamsData with
  | [] => mret tt
  | teamData :: rest =>
      if isNil (prop teamData "name") || isNil (prop teamData "description")
      then throw (BadRequestException
                    "CSV 파일은 name과 description 컬럼을 포함해야 합니다.")
      else validate rest
  end.

(** The arrow function mapped over the rows: only [name] and
    [description] are copied. *)
Definition createTeamDto (teamData : CsvRow) : CreateTeamDto :=
  {| dto_name := prop teamData "name";
     dto_description := prop teamData "description" |}.

Definition create (file : MulterFile) : Promise unit :=
  if negb (endsWith (originalname file) ".csv")
  then throw (BadRequestException "CSV 파일만 업로드 가능합니다.")
  else
    let csvContent := toString (buffer file) in
    teamsData ← try_catch (papa_parse csvContent)
                  (fun _ => throw (BadRequestException "CSV 파싱에 실패했습니다."));
    validate teamsData;;
    let createTeamDtos := map createTeamDto teamsData in
    team_save createTeamDtos.

Definition update (id : Z) (updateTeamDto : UpdateTeamDto) : Promise unit :=
  verifyTeamById id;;
  team_update id updateTeamDto.

Definition delete (id : Z) : Promise unit :=
  verifyTeamById id;;
  team_delete id.

(** *** Player methods *)

Definition like_pattern (s : string) : string := "%" +:+ s +:+ "%".

(** The two optional [andWhere] calls shared by both player queries. *)
Definition add_filters (query : PaginationQueryDto) (qb : SelectQueryBuilder)
  : SelectQueryBuilder :=
  let qb1 :=
    match name query with
    | Some n => if truthy (Some n) then andWhere (NameLike (like_pattern n)) qb else qb
    | None => qb
    end in
  match nickname query with
  | Some n => if truthy (Some n) then andWhere (NicknameLike (like_pattern n)) qb1 else qb1
  | None => qb1
  end.

Definition findAllPlayers (query : PaginationQueryDto) : Promise Cached :=
  let page := default 1 (page query) in
  let page_size := default 10 (page_size query) in
  let queryBuilder := add_filters query createQueryBuilder in
  if truthy (name query) && truthy (nickname query) then
    searchAllPlayers ← cache_get "searchAllPlayers";
    match searchAllPlayers with
    | None =>
        rows ← getMany queryBuilder;
        cache_set "searchAllPlayers" (CachedPlayers rows) (Some (1000 * 60 * 5));;
        mret (CachedPlayers rows)
    | Some hit =>
        console_log "=========== cache hit! ===========";;
        mret hit
    end
  else
    players ← getMany queryBuilder;
    mret (CachedPlayers players).

Definition findPlayersByTeamId (teamId : Z) (query : PaginationQueryDto)
  : Promise (list Player.t) :=
  let page := default 1 (page query) in
  let page_size := default 10 (page_size query) in
  let queryBuilder :=
    add_filters query
      (take_ page_size
         (skip ((page - 1) * page_size)
            (where_ (TeamIdEq teamId) createQueryBuilder))) in
  getMany queryBuilder.

(** *** Statistics *)

Definition getTeamStats : Promise Cached :=
  stats ← cache_get "teamStats";
  match stats with
  | None =>
      rows ← team_stats_getRawMany;
      cache_set "teamStats" (CachedStats rows) None;;
      mret (CachedStats rows)
  | Some hit => mret hit
  end.

End TeamService.

(** ** Sample collaborators and data *)

(** A [LIKE] with the wildcards [%] and [_] under a binary collation. *)
Fixpoint like_match (pattern : string) : string -> bool :=
  match pattern with
  | EmptyString =>
      fun s => match s with EmptyString => true | String _ _ => false end
  | String c pattern' =>
      if Ascii.eqb c "%" then
        fix star (s : string) : bool :=
          like_match pattern' s
          || match s with EmptyString => false | String _ s' => star s' end
      else if Ascii.eqb c "_" then
        fun s => match s with EmptyString => false | String _ s' => like_match pattern' s' end
      else
        fun s => match s with
                 | EmptyString => false
                 | String d s' => Ascii.eqb c d && like_match pattern' s'
                 end
  end.

Definition like_bin (subject pattern : string) : bool :=
  like_match pattern subject.

(** A text without the two wildcard characters. *)
Fixpoint plain (s : string) : bool :=
  match s with
  | EmptyString => true
  | String c s' => negb (Ascii.eqb c "%") && negb (Ascii.eqb c "_") && plain s'
  end.

(** ASCII lower-casing, to speak about the casing of an extension. *)
Definition lower_ascii (c : ascii) : ascii :=
  let n := nat_of_ascii c in
  if ((65 <=? n) && (n <=? 90))%nat then ascii_of_nat (n + 32) else c.

Fixpoint toLowerCase (s : string) : string :=
  match s with
  | EmptyString => EmptyString
  | String c s' => String (lower_ascii c) (toLowerCase s')
  end.

Definition row_ok (r : CsvRow) : bool :=
  negb (isNil (prop r "name")) && negb (isNil (prop r "description")).

(** A team row carries exactly the two cells of a CSV row. *)
Definition copied (r : CsvRow) (t : Team.t) : Prop :=
  prop r "name" = JsString (Team.name t)
  /\ prop r "description" = JsString (Team.description t).

(** What an update of team [id] by [dto] may do to one row: the id stays,
    a row of another team stays whole, a field the patch leaves out stays,
    and a field the patch provides is set on the rows of team [id]. *)
Definition patched (id : Z) (dto : UpdateTeamDto) (t t' : Team.t) : Prop :=
  Team.id t' = Team.id t
  /\ (Team.id t <> id -> t' = t)
  /\ (upd_name dto = None -> Team.name t' = Team.name t)
  /\ (upd_description dto = None -> Team.description t' = Team.description t)
  /\ (Team.id t = id ->
      (forall n, upd_name dto = Some n -> Team.name t' = n)
      /\ (forall d, upd_description dto = Some d -> Team.description t' = d)).

Definition sample_teams : list Team.t :=
  [Team.mk 1 "Lions" "north"; Team.mk 2 "Tigers" "south"].

Definition team_world : World :=
  {| teams := sample_teams; team_seq := 3; players := []; supportMessages := [];
     cache := ∅; cache_ttl := 0; now := 0; trace := [] |}.

Definition rename_to_X : UpdateTeamDto :=
  {| upd_name := Some "X"; upd_description := None |}.

(** The conjunction of the team test and the two optional [LIKE]
    filters, as one predicate on a player row. *)
Definition text_filter (sql_like : string -> string -> bool)
           (wanted : option string) (subject : string) : bool :=
  match wanted with
  | Some s => if truthy (Some s) then sql_like subject ("%" +:+ s +:+ "%") else true
  | None => true
  end.

(** The conditions the two filters put on a query, in the order given:
    the text between two [%] wildcards. *)
Definition like_conditions (query : PaginationQueryDto) : list Condition :=
  (match name query with
   | Some s => if truthy (Some s) then [NameLike ("%" +:+ s +:+ "%")] else []
   | None => []
   end)
  ++ (match nickname query with
      | Some s => if truthy (Some s) then [NicknameLike ("%" +:+ s +:+ "%")] else []
      | None => []
      end).

Definition wanted_in_team (sql_like : string -> string -> bool) (teamId : Z)
           (query : PaginationQueryDto) (p : Player.t) : bool :=
  (Player.team_id p =? teamId)
  && text_filter sql_like (name query) (Player.name p)
  && text_filter sql_like (nickname query) (Player.nickname p).

Definition sample_players : list Player.t :=
  [ Player.mk 1 "alba" "bee" 1;  Player.mk 2 "bart" "bab" 1;
    Player.mk 3 "cleo" "cub" 2;  Player.mk 4 "dana" "dab" 1;
    Player.mk 5 "ezra" "ebb" 1;  Player.mk 6 "fay" "fib" 1;
    Player.mk 7 "gail" "gab" 1;  Player.mk 8 "hana" "hub" 2;
    Player.mk 9 "iva" "ibis" 1;  Player.mk 10 "jude" "jab" 1 ].

Definition sample_messages : list SupportMessage.t :=
  [ SupportMessage.mk 1 1; SupportMessage.mk 2 2; SupportMessage.mk 3 1 ].

Definition league : World :=
  {| teams := sample_teams; team_seq := 3; players := sample_players;
     supportMessages := sample_messages; cache := ∅; cache_ttl := 0; now := 0; trace := [] |}.

Definition query_a_b : PaginationQueryDto :=
  {| page := None; page_size := None; name := Some "a"; nickname := Some "b" |}.

Definition query_page_2_of_5 : PaginationQueryDto :=
  {| page := Some 2; page_size := Some 5; name := None; nickname := None |}.

(** The statistics row of one team, counted directly on the tables. *)
Definition team_stat (w : World) (t : Team.t) : TeamStat :=
  {| stat_id := Team.id t;
     stat_name := Team.name t;
     playerCount := length (players_of (Team.id t) w);
     supportMessageCount := length (messages_of (Team.id t) w) |}.

(** One team with three players and two support messages, and one team
    with neither. *)
Definition small_league : World :=
  {| teams := sample_teams; team_seq := 3;
     players := [ Player.mk 1 "alba" "bee" 1; Player.mk 2 "bart" "bab" 1;
                  Player.mk 3 "cleo" "cub" 1 ];
     supportMessages := [ SupportMessage.mk 1 1; SupportMessage.mk 2 1 ];
     cache := ∅; cache_ttl := 0; now := 0; trace := [] |}.

(** The same league behind a cache store registered with a default
    time-to-live of five milliseconds. *)
Definition small_league_ttl5 : World :=
  {| teams := teams small_league; team_seq := team_seq small_league;
     players := players small_league;
     supportMessages := supportMessages small_league;
     cache := ∅; cache_ttl := 5; now := 0; trace := [] |}.

Definition empty_patch : UpdateTeamDto :=
  {| upd_name := None; upd_description := None |}.

Definition query_page_2_of_2_a_b : PaginationQueryDto :=
  {| page := Some 2; page_size := Some 2; name := Some "a"; nickname := Some "b" |}.

Definition csv_row (cells : list (string * JsValue)) : CsvRow :=
  list_to_map cells.

Definition empty_world : World :=
  {| teams := []; team_seq := 1; players := []; supportMessages := [];
     cache := ∅; cache_ttl := 0; now := 0; trace := [] |}.

Definition two_rows : list CsvRow :=
  [ csv_row [("name", JsString "A"); ("description", JsString "d1"); ("city", JsString "x")];
    csv_row [("name", JsString "B"); ("description", JsString "d2")] ].

Definition rows_missing_description : list CsvRow :=
  [ csv_row [("name", JsString "A"); ("description", JsString "d1")];
    csv_row [("name", JsString "B")] ].

Definition rows_empty_text : list CsvRow :=
  [ csv_row [("name", JsString ""); ("description", JsString "")] ].

Definition file_named (n : string) : MulterFile :=
  {| originalname := n; buffer := [] |}.

(** ** The controller

    Each endpoint hands its arguments to the service method of the same
    name; the two player endpoints print a banner first.  The role guard
    and the routing are the framework's. *)

Module TeamController.
Section Endpoints.

Variable parse : string -> option (list CsvRow).
Variable sql_like : string -> string -> bool.

Definition findAll : Promise (list (Z * string)) :=
  findAll.

Definition create (file : MulterFile) : Promise unit :=
  create parse file.

Definition update (id : Z) (updateTeamDto : UpdateTeamDto) : Promise unit :=
  update id updateTeamDto.

Definition delete (id : Z) : Promise unit :=
  delete id.

Definition findAllPlayers (paginationQuery : PaginationQueryDto) : Promise Cached :=
  console_log "=============== findAllPlayers ===============";;
  findAllPlayers sql_like paginationQuery.

Definition findPlayersByTeamId (teamId : Z) (paginationQuery : PaginationQueryDto)
  : Promise (list Player.t) :=
  console_log "=============== findPlayersByTeamId ===============";;
  findPlayersByTeamId sql_like teamId paginationQuery.

End Endpoints.
End TeamController.

(** ** Vocabulary of the further properties *)

(** The relational part of the world. *)
Definition tables (w : World)
  : list Team.t * Z * list Player.t * list SupportMessage.t :=
  (teams w, team_seq w, players w, supportMessages w).

(** The calls issued between an earlier world and a later one. *)
Definition calls_since (before after : World) : list Event :=
  drop (length (trace before)) (trace after).

(** Two CSV rows that agree on the two cells the import reads. *)
Definition same_cells (r r' : CsvRow) : Prop :=
  prop r "name" = prop r' "name"
  /\ prop r "description" = prop r' "description".

(** The player rows a query without team restriction asks for. *)
Definition wanted (sql_like : string -> string -> bool)
           (query : PaginationQueryDto) (p : Player.t) : bool :=
  text_filter sql_like (name query) (Player.name p)
  && text_filter sql_like (nickname query) (Player.nickname p).

Definition with_page (p sz : Z) (query : PaginationQueryDto) : PaginationQueryDto :=
  {| page := Some p; page_size := Some sz;
     name := name query; nickname := nickname query |}.

Definition no_filter : PaginationQueryDto :=
  {| page := None; page_size := None; name := None; nickname := None |}.

Definition query_z_z : PaginationQueryDto :=
  {| page := None; page_size := None; name := Some "z"; nickname := Some "z" |}.

Definition query_name_a : PaginationQueryDto :=
  {| page := None; page_size := None; name := Some "a"; nickname := None |}.

Definition rows_with_other_columns : list CsvRow :=
  [ csv_row [("name", JsString "A"); ("description", JsString "d1")];
    csv_row [("name", JsString "B"); ("description", JsString "d2");
             ("coach", JsString "y")] ].

(** * Properties *)

(** ** Strings *)

Lemma length_append (a b : string) :
  String.length (a +:+ b) = (String.length a + String.length b)%nat.
Proof. induction a as [|c a IH]; simpl; [reflexivity | now rewrite IH]. Qed.

Lemma substring_whole (b : string) : String.substring 0 (String.length b) b = b.
Proof. induction b as [|c b IH]; simpl; [reflexivity | now rewrite IH]. Qed.

Lemma substring_append_tail (a b : string) :
  String.substring (String.length a) (String.length b) (a +:+ b) = b.
Proof. induction a as [|c a IH]; simpl; [apply substring_whole | exact IH]. Qed.

Lemma endsWith_append (stem ext suffix : string) :
  String.length ext = String.length suffix ->
  endsWith (stem +:+ ext) suffix = String.eqb ext suffix.
Proof.
  intros Hlen. unfold endsWith. rewrite length_append, <- Hlen.
  replace (String.length stem + String.length ext - String.length ext)%nat
    with (String.length stem) by lia.
  rewrite substring_append_tail.
  replace (String.length ext <=? String.length stem + String.length ext)%nat
    with true by (symmetry; apply Nat.leb_le; lia).
  reflexivity.
Qed.

Lemma length_toLowerCase (s : string) :
  String.length (toLowerCase s) = String.length s.
Proof. induction s as [|c s IH]; simpl; [reflexivity | now rewrite IH]. Qed.

(** ** The validation loop and the bulk insert *)

Lemma validate_spec (data : list CsvRow) (w : World) :
  validate data w =
  if forallb row_ok data
  then (Return tt, w)
  else (Throw (BadRequestException
                 "CSV 파일은 name과 description 컬럼을 포함해야 합니다."), w).
Proof.
  induction data as [|r data IH]; simpl; [reflexivity|].
  unfold row_ok at 1.
  destruct (isNil (prop r "name")); simpl; [reflexivity|].
  destruct (isNil (prop r "description")); simpl; [reflexivity | exact IH].
Qed.

Lemma new_rows_spec (data : list CsvRow) :
  forallb row_ok data = true ->
  forall seq, exists new,
    new_rows seq (map createTeamDto data) = Some new /\ Forall2 copied data new.
Proof.
  induction data as [|r data IH]; simpl; intros Hok seq.
  - exists []. split; [reflexivity | constructor].
  - apply andb_true_iff in Hok as [Hr Hrest].
    destruct (IH Hrest (seq + 1)) as [new [Hnew Hall]]. rewrite Hnew.
    unfold row_ok in Hr. apply andb_true_iff in Hr as [Hn Hd].
    destruct (prop r "name") as [| |n] eqn:En; try discriminate.
    destruct (prop r "description") as [| |d] eqn:Ed; try discriminate.
    exists (Team.mk seq n d :: new). split; [reflexivity|].
    constructor; [|exact Hall]. split; simpl; assumption.
Qed.

Lemma create_parsed (parse : string -> option (list CsvRow))
      (file : MulterFile) (data : list CsvRow) (w : World) :
  endsWith (originalname file) ".csv" = true ->
  parse (toString (buffer file)) = Some data ->
  create parse file w =
  let parsed := emit (EParse (toString (buffer file))) w in
  if forallb row_ok data
  then team_save (map createTeamDto data) parsed
  else (Throw (BadRequestException
                 "CSV 파일은 name과 description 컬럼을 포함해야 합니다."), parsed).
Proof.
  intros Hext Hparse. unfold create. rewrite Hext. simpl.
  unfold mbind, promise_bind, try_catch, papa_parse. rewrite Hparse.
  rewrite validate_spec. destruct (forallb row_ok data); reflexivity.
Qed.

(** C1. Validation in [create] is all-or-nothing.  For an upload with a
    [.csv] name whose text parses to the rows [data]: when every row has a
    non-nil [name] and [description], the call returns and the team table
    grows by exactly one row per CSV row, in order, carrying that row's
    [name] and [description] and nothing else of it; when some row lacks
    one of the two, the call throws the bad-request exception after the
    parse, the store is untouched and no save is issued. *)
Theorem create_all_or_nothing (parse : string -> option (list CsvRow))
        (file : MulterFile) (data : list CsvRow) (w : World) :
  endsWith (originalname file) ".csv" = true ->
  parse (toString (buffer file)) = Some data ->
  let parsed := emit (EParse (toString (buffer file))) w in
  if forallb row_ok data
  then exists new,
      create parse file w =
      (Return tt,
       with_teams (teams w ++ new) (team_seq w + Z.of_nat (length new))
                  (emit (ETeamSave (map createTeamDto data)) parsed))
      /\ Forall2 copied data new
  else create parse file w =
       (Throw (BadRequestException
                 "CSV 파일은 name과 description 컬럼을 포함해야 합니다."), parsed).
Proof.
  intros Hext Hparse. rewrite (create_parsed parse file data w Hext Hparse).
  simpl. destruct (forallb row_ok data) eqn:Hok; [|reflexivity].
  destruct (new_rows_spec data Hok (team_seq w)) as [new [Hnew Hall]].
  exists new. split; [|exact Hall].
  unfold team_save. simpl. rewrite Hnew. reflexivity.
Qed.

Lemma create_all_or_nothing_witness :
  exists new,
    create (fun _ => Some two_rows) (file_named "teams.csv") empty_world =
    (Return tt,
     with_teams (teams empty_world ++ new)
                (team_seq empty_world + Z.of_nat (length new))
                (emit (ETeamSave (map createTeamDto two_rows))
                      (emit (EParse "") empty_world)))
    /\ Forall2 copied two_rows new.
Proof.
  exact (create_all_or_nothing (fun _ => Some two_rows) (file_named "teams.csv")
                               two_rows empty_world eq_refl eq_refl).
Defined.

Example create_two_rows :
  create (fun _ => Some two_rows) (file_named "teams.csv") empty_world =
  (Return tt,
   {| teams := [Team.mk 1 "A" "d1"; Team.mk 2 "B" "d2"]; team_seq := 3;
      players := []; supportMessages := []; cache := ∅; cache_ttl := 0; now := 0;
      trace := [EParse "";
                ETeamSave [ {| dto_name := JsString "A"; dto_description := JsString "d1" |};
                            {| dto_name := JsString "B"; dto_description := JsString "d2" |} ]] |}).
Proof. vm_compute. reflexivity. Qed.

Example create_missing_description :
  create (fun _ => Some rows_missing_description) (file_named "teams.csv") empty_world =
  (Throw (BadRequestException
            "CSV 파일은 name과 description 컬럼을 포함해야 합니다."),
   emit (EParse "") empty_world).
Proof. vm_compute. reflexivity. Qed.

(** ** The extension gate *)

(** C8. An upload whose name does not end in [.csv] is refused with the
    bad-request exception and the world is exactly as before: nothing was
    decoded or parsed (no parser call is recorded) and no team exists
    that did not exist before. *)
Theorem create_rejects_other_extensions (parse : string -> option (list CsvRow))
        (file : MulterFile) (w : World) :
  endsWith (originalname file) ".csv" = false ->
  create parse file w =
  (Throw (BadRequestException "CSV 파일만 업로드 가능합니다."), w).
Proof. intros Hext. unfold create. rewrite Hext. reflexivity. Qed.

Lemma create_rejects_other_extensions_witness :
  create (fun _ => Some two_rows) (file_named "teams.txt") empty_world =
  (Throw (BadRequestException "CSV 파일만 업로드 가능합니다."), empty_world).
Proof.
  exact (create_rejects_other_extensions (fun _ => Some two_rows)
           (file_named "teams.txt") empty_world eq_refl).
Defined.

(** C9. The extension test is case-sensitive: a name whose last four
    characters spell [.csv] in any casing other than all lower case is
    refused with the bad-request exception, whatever the file holds. *)
Theorem create_extension_case_sensitive (parse : string -> option (list CsvRow))
        (stem ext : string) (content : list Byte.byte) (w : World) :
  toLowerCase ext = ".csv" ->
  ext <> ".csv" ->
  create parse {| originalname := stem +:+ ext; buffer := content |} w =
  (Throw (BadRequestException "CSV 파일만 업로드 가능합니다."), w).
Proof.
  intros Hlow Hne. unfold create. cbn [originalname].
  rewrite endsWith_append.
  - apply String.eqb_neq in Hne. rewrite Hne. reflexivity.
  - rewrite <- (length_toLowerCase ext), Hlow. reflexivity.
Qed.

Lemma create_extension_case_sensitive_witness :
  create (fun _ => Some two_rows)
         {| originalname := "teams" +:+ ".CSV"; buffer := [] |} empty_world =
  (Throw (BadRequestException "CSV 파일만 업로드 가능합니다."), empty_world).
Proof.
  refine (create_extension_case_sensitive (fun _ => Some two_rows)
            "teams" ".CSV" [] empty_world eq_refl _).
  discriminate.
Defined.

(** ** Empty cells *)

(** C10. Row validation rejects nil cells only.  When the first parsed
    row has text cells for [name] and [description] and one of the two
    texts is empty, and the remaining rows are valid, the call returns
    and the store holds a new team carrying those texts, the empty one
    included. *)
Theorem create_accepts_empty_text (parse : string -> option (list CsvRow))
        (file : MulterFile) (r : CsvRow) (rest : list CsvRow)
        (n d : string) (w : World) :
  endsWith (originalname file) ".csv" = true ->
  parse (toString (buffer file)) = Some (r :: rest) ->
  prop r "name" = JsString n ->
  prop r "description" = JsString d ->
  n = "" \/ d = "" ->
  forallb row_ok rest = true ->
  fst (create parse file w) = Return tt
  /\ In (Team.mk (team_seq w) n d) (teams (snd (create parse file w))).
Proof.
  intros Hext Hparse Hn Hd _ Hrest.
  rewrite (create_parsed parse file (r :: rest) w Hext Hparse).
  assert (Hok : forallb row_ok (r :: rest) = true).
  { simpl. rewrite Hrest. unfold row_ok. rewrite Hn, Hd. reflexivity. }
  cbv zeta. rewrite Hok.
  destruct (new_rows_spec rest Hrest (team_seq w + 1)) as [new [Hnew _]].
  unfold team_save. cbn [map new_rows createTeamDto dto_name dto_description].
  rewrite Hn, Hd. cbn [emit team_seq]. rewrite Hnew. cbn [fst snd with_teams teams].
  split; [reflexivity|]. apply in_or_app. right. left. reflexivity.
Qed.

Lemma create_accepts_empty_text_witness :
  fst (create (fun _ => Some rows_empty_text) (file_named "teams.csv") empty_world)
  = Return tt
  /\ In (Team.mk 1 "" "")
        (teams (snd (create (fun _ => Some rows_empty_text)
                            (file_named "teams.csv") empty_world))).
Proof.
  refine (create_accepts_empty_text (fun _ => Some rows_empty_text)
            (file_named "teams.csv") _ [] "" "" empty_world
            eq_refl eq_refl eq_refl eq_refl _ eq_refl).
  left. reflexivity.
Defined.

(** ** The existence check *)

Lemma find_absent (id : Z) (ts : list Team.t) :
  (forall t, In t ts -> Team.id t <> id) ->
  List.find (fun t => Team.id t =? id) ts = None.
Proof.
  induction ts as [|t ts IH]; simpl; intros Habs; [reflexivity|].
  destruct (Z.eqb_spec (Team.id t) id) as [E|_].
  - exfalso. exact (Habs t (or_introl eq_refl) E).
  - apply IH. intros t' Hin. apply Habs. right. exact Hin.
Qed.

Lemma find_present (id : Z) (ts : list Team.t) :
  (exists t, In t ts /\ Team.id t = id) ->
  exists t0, List.find (fun t => Team.id t =? id) ts = Some t0.
Proof.
  intros [t [Hin Hid]].
  destruct (List.find (fun t => Team.id t =? id) ts) as [t0|] eqn:E; [eauto|].
  pose proof (find_none _ _ E t Hin) as Hno. simpl in Hno.
  apply Z.eqb_neq in Hno. contradiction.
Qed.

Lemma verifyTeamById_absent (id : Z) (w : World) :
  (forall t, In t (teams w) -> Team.id t <> id) ->
  verifyTeamById id w =
  (Throw (NotFoundException "존재하지 않는 팀입니다."), emit (ETeamFindOneBy id) w).
Proof.
  intros Habs. unfold verifyTeamById, mbind, promise_bind, team_findOneBy.
  rewrite (find_absent id (teams w) Habs). reflexivity.
Qed.

Lemma verifyTeamById_present (id : Z) (w : World) :
  (exists t, In t (teams w) /\ Team.id t = id) ->
  exists t0, verifyTeamById id w = (Return t0, emit (ETeamFindOneBy id) w).
Proof.
  intros Hex. destruct (find_present id (teams w) Hex) as [t0 E].
  exists t0. unfold verifyTeamById, mbind, promise_bind, team_findOneBy.
  rewrite E. reflexivity.
Qed.

(** C7. For an id that no team row has, [findOne], [update] and
    [delete] all throw the not-found exception; the only call issued to
    the store is the lookup by id, so the tables are unchanged and no
    update or delete is recorded. *)
Theorem absent_team_not_found (id : Z) (dto : UpdateTeamDto) (w : World) :
  (forall t, In t (teams w) -> Team.id t <> id) ->
  findOne id w =
    (Throw (NotFoundException "존재하지 않는 팀입니다."), emit (ETeamFindOneBy id) w)
  /\ update id dto w =
    (Throw (NotFoundException "존재하지 않는 팀입니다."), emit (ETeamFindOneBy id) w)
  /\ delete id w =
    (Throw (NotFoundException "존재하지 않는 팀입니다."), emit (ETeamFindOneBy id) w).
Proof.
  intros Habs. pose proof (verifyTeamById_absent id w Habs) as Hv.
  unfold findOne, update, delete, mbind, promise_bind.
  rewrite Hv. repeat split; reflexivity.
Qed.

Lemma absent_team_not_found_witness :
  findOne 7 team_world =
    (Throw (NotFoundException "존재하지 않는 팀입니다."), emit (ETeamFindOneBy 7) team_world)
  /\ update 7 rename_to_X team_world =
    (Throw (NotFoundException "존재하지 않는 팀입니다."), emit (ETeamFindOneBy 7) team_world)
  /\ delete 7 team_world =
    (Throw (NotFoundException "존재하지 않는 팀입니다."), emit (ETeamFindOneBy 7) team_world).
Proof.
  apply (absent_team_not_found 7 rename_to_X team_world).
  intros t [<-|[<-|[]]]; discriminate.
Defined.

(** ** Partial update *)

Lemma patch_patched (id : Z) (dto : UpdateTeamDto) (t : Team.t) :
  patched id dto t (if Team.id t =? id then patch dto t else t).
Proof.
  unfold patched. destruct (Z.eqb_spec (Team.id t) id) as [E|N].
  - unfold patch. simpl. repeat split.
    + intros N. contradiction.
    + intros ->. reflexivity.
    + intros ->. reflexivity.
    + intros n ->. reflexivity.
    + intros d ->. reflexivity.
  - repeat split; try reflexivity; intros E; contradiction.
Qed.

Lemma Forall2_map_patched (id : Z) (dto : UpdateTeamDto) (ts : list Team.t) :
  Forall2 (patched id dto) ts
          (map (fun t => if Team.id t =? id then patch dto t else t) ts).
Proof.
  induction ts as [|t ts IH]; simpl; constructor;
    [apply patch_patched | exact IH].
Qed.

Lemma patch_no_values (dto : UpdateTeamDto) (t : Team.t) :
  no_values dto = true -> patch dto t = t.
Proof.
  unfold no_values, patch.
  destruct (upd_name dto), (upd_description dto); try discriminate.
  intros _. destruct t. reflexivity.
Qed.

Lemma map_patch_no_values (id : Z) (dto : UpdateTeamDto) (ts : list Team.t) :
  no_values dto = true ->
  map (fun t => if Team.id t =? id then patch dto t else t) ts = ts.
Proof.
  intros Hno. induction ts as [|t ts IH]; simpl; [reflexivity|].
  rewrite IH, (patch_no_values dto t Hno). destruct (Team.id t =? id); reflexivity.
Qed.

(** The run of [update] on an id that exists: the outcome depends on
    whether the patch provides a value, the table is patched row by row
    (which changes nothing when the patch is empty). *)
Lemma update_present_run (id : Z) (dto : UpdateTeamDto) (w : World) :
  (exists t, In t (teams w) /\ Team.id t = id) ->
  update id dto w =
  (if no_values dto then Throw UpdateValuesMissingError else Return tt,
   with_teams (map (fun t => if Team.id t =? id then patch dto t else t) (teams w))
              (team_seq w)
              (emit (ETeamUpdate id dto) (emit (ETeamFindOneBy id) w))).
Proof.
  intros Hex. destruct (verifyTeamById_present id w Hex) as [t0 Hv].
  unfold update, mbind, promise_bind. rewrite Hv. unfold team_update.
  destruct (no_values dto) eqn:Hno; [|reflexivity].
  rewrite (map_patch_no_values id dto (teams w) Hno). reflexivity.
Qed.

(** C6. [update] on an id that exists looks the id up and issues one
    update; the team table after the call is the table before it, row by
    row in the same order, where each row keeps its id, every row of
    another team is unchanged, and on the rows of team [id] exactly the
    fields present in the patch are set while the absent ones keep their
    value.  Players, support messages and the cache are untouched.  The
    call returns when the patch provides a value; a patch that provides
    none is refused by the store, and then no row changes at all. *)
Theorem update_only_provided_fields (id : Z) (dto : UpdateTeamDto) (w : World) :
  (exists t, In t (teams w) /\ Team.id t = id) ->
  exists w',
    update id dto w =
      (if no_values dto then Throw UpdateValuesMissingError else Return tt, w')
    /\ Forall2 (patched id dto) (teams w) (teams w')
    /\ (no_values dto = true -> teams w' = teams w)
    /\ players w' = players w
    /\ supportMessages w' = supportMessages w
    /\ cache w' = cache w
    /\ trace w' = trace w ++ [ETeamFindOneBy id; ETeamUpdate id dto].
Proof.
  intros Hex. eexists. split; [exact (update_present_run id dto w Hex)|].
  cbn [teams players supportMessages cache trace with_teams emit].
  split; [apply Forall2_map_patched|].
  split; [apply map_patch_no_values|].
  repeat split. rewrite <- app_assoc. reflexivity.
Qed.

Lemma update_only_provided_fields_witness :
  exists w',
    update 1 rename_to_X team_world = (Return tt, w')
    /\ Forall2 (patched 1 rename_to_X) (teams team_world) (teams w')
    /\ (no_values rename_to_X = true -> teams w' = teams team_world)
    /\ players w' = players team_world
    /\ supportMessages w' = supportMessages team_world
    /\ cache w' = cache team_world
    /\ trace w' = trace team_world ++ [ETeamFindOneBy 1; ETeamUpdate 1 rename_to_X].
Proof.
  apply (update_only_provided_fields 1 rename_to_X team_world).
  exists (Team.mk 1 "Lions" "north"). split; [left; reflexivity | reflexivity].
Defined.

Example update_name_only :
  teams (snd (update 1 rename_to_X team_world)) =
  [Team.mk 1 "X" "north"; Team.mk 2 "Tigers" "south"].
Proof. reflexivity. Qed.

Example update_empty_patch :
  update 1 empty_patch team_world =
  (Throw UpdateValuesMissingError,
   emit (ETeamUpdate 1 empty_patch) (emit (ETeamFindOneBy 1) team_world)).
Proof. reflexivity. Qed.

(** ** Listing players *)

(** C2. Pagination is inert in [findAllPlayers]: replacing [page] and
    [page_size] of a query by any other values changes neither the
    returned rows nor the world after the call, whatever the store and
    the cache hold and whichever branch (cached or direct) is taken. *)
Theorem findAllPlayers_pagination_inert (sql_like : string -> string -> bool)
        (query : PaginationQueryDto) (page' page_size' : option Z) (w : World) :
  findAllPlayers sql_like
    {| page := page'; page_size := page_size';
       name := name query; nickname := nickname query |} w
  = findAllPlayers sql_like query w.
Proof. destruct query as [pg sz n k]. reflexivity. Qed.

Lemma cache_lookup_emit (key : string) (e : Event) (w : World) :
  cache_lookup key (emit e w) = cache_lookup key w.
Proof. reflexivity. Qed.

Lemma findAllPlayers_hit (sql_like : string -> string -> bool)
      (query : PaginationQueryDto) (hit : Cached) (w : World) :
  truthy (name query) = true ->
  truthy (nickname query) = true ->
  cache_lookup "searchAllPlayers" w = Some hit ->
  findAllPlayers sql_like query w =
  (Return hit,
   emit (EConsoleLog "=========== cache hit! ===========")
        (emit (ECacheGet "searchAllPlayers") w)).
Proof.
  intros Hn Hk Hhit. unfold findAllPlayers. rewrite Hn, Hk. simpl.
  unfold mbind, promise_bind, cache_get. rewrite Hhit. reflexivity.
Qed.

Lemma findAllPlayers_miss (sql_like : string -> string -> bool)
      (query : PaginationQueryDto) (w : World) :
  truthy (name query) = true ->
  truthy (nickname query) = true ->
  cache_lookup "searchAllPlayers" w = None ->
  findAllPlayers sql_like query w =
  let qb := add_filters query createQueryBuilder in
  let rows := CachedPlayers (select sql_like qb (players w)) in
  (Return rows,
   with_cache
     (<["searchAllPlayers" :=
          {| entry_value := rows; entry_expires := Some (now w + 1000 * 60 * 5) |}]>
        (cache w))
     (emit (ECacheSet "searchAllPlayers" rows (Some (1000 * 60 * 5)))
           (emit (EPlayerGetMany qb) (emit (ECacheGet "searchAllPlayers") w)))).
Proof.
  intros Hn Hk Hmiss. unfold findAllPlayers. rewrite Hn, Hk. simpl.
  unfold mbind, promise_bind, cache_get. rewrite Hmiss. reflexivity.
Qed.

(** C3. With both [name] and [nickname] supplied, [findAllPlayers] reads
    cache-aside under the one key ["searchAllPlayers"], whatever the
    filter values are.  On a hit the cached value is returned and the
    calls issued are the cache read and the log line, so the store is not
    queried.  On a miss the calls issued are the cache read, one query of
    the player table and one cache write of the queried rows under that
    key with a time-to-live of 1000*60*5 ms, and those rows are
    returned. *)
Theorem findAllPlayers_cache_aside (sql_like : string -> string -> bool)
        (query : PaginationQueryDto) (w : World) :
  truthy (name query) = true ->
  truthy (nickname query) = true ->
  match cache_lookup "searchAllPlayers" w with
  | Some hit =>
      findAllPlayers sql_like query w =
      (Return hit,
       emit (EConsoleLog "=========== cache hit! ===========")
            (emit (ECacheGet "searchAllPlayers") w))
  | None =>
      let qb := add_filters query createQueryBuilder in
      let rows := CachedPlayers (select sql_like qb (players w)) in
      findAllPlayers sql_like query w =
      (Return rows,
       with_cache
         (<["searchAllPlayers" :=
              {| entry_value := rows;
                 entry_expires := Some (now w + 1000 * 60 * 5) |}]> (cache w))
         (emit (ECacheSet "searchAllPlayers" rows (Some (1000 * 60 * 5)))
               (emit (EPlayerGetMany qb) (emit (ECacheGet "searchAllPlayers") w))))
  end.
Proof.
  intros Hn Hk. destruct (cache_lookup "searchAllPlayers" w) as [hit|] eqn:E.
  - exact (findAllPlayers_hit sql_like query hit w Hn Hk E).
  - exact (findAllPlayers_miss sql_like query w Hn Hk E).
Qed.

(** A second call within the time-to-live returns what the first call
    cached, without a store query, even for other filter values. *)
Lemma findAllPlayers_again_within_ttl (sql_like : string -> string -> bool)
      (query query' : PaginationQueryDto) (w : World) (dt : Z) :
  truthy (name query) = true -> truthy (nickname query) = true ->
  truthy (name query') = true -> truthy (nickname query') = true ->
  cache_lookup "searchAllPlayers" w = None ->
  0 <= dt < 1000 * 60 * 5 ->
  let first := findAllPlayers sql_like query w in
  let later := advance dt (snd first) in
  findAllPlayers sql_like query' later =
  (fst first,
   emit (EConsoleLog "=========== cache hit! ===========")
        (emit (ECacheGet "searchAllPlayers") later)).
Proof.
  intros Hn Hk Hn' Hk' Hmiss Hdt.
  rewrite (findAllPlayers_miss sql_like query w Hn Hk Hmiss). cbv zeta.
  cbn [fst snd]. apply findAllPlayers_hit; [assumption..|].
  unfold cache_lookup. cbn [cache advance with_cache now emit].
  rewrite lookup_insert_eq. unfold live. cbn [entry_expires entry_value].
  destruct (Z.leb_spec (now w + dt) (now w + 1000 * 60 * 5)); [reflexivity | lia].
Qed.

(** Once more than the time-to-live has passed the entry no longer
    answers. *)
Lemma findAllPlayers_entry_expires (sql_like : string -> string -> bool)
      (query : PaginationQueryDto) (w : World) (dt : Z) :
  truthy (name query) = true -> truthy (nickname query) = true ->
  cache_lookup "searchAllPlayers" w = None ->
  1000 * 60 * 5 < dt ->
  cache_lookup "searchAllPlayers"
               (advance dt (snd (findAllPlayers sql_like query w))) = None.
Proof.
  intros Hn Hk Hmiss Hdt.
  rewrite (findAllPlayers_miss sql_like query w Hn Hk Hmiss). cbv zeta.
  unfold cache_lookup. cbn [snd cache advance with_cache now emit].
  rewrite lookup_insert_eq. unfold live. cbn [entry_expires].
  destruct (Z.leb_spec (now w + dt) (now w + 1000 * 60 * 5)); [lia | reflexivity].
Qed.

Lemma findAllPlayers_cache_aside_witness :
  let qb := add_filters query_a_b createQueryBuilder in
  let rows := CachedPlayers (select like_bin qb (players league)) in
  findAllPlayers like_bin query_a_b league =
  (Return rows,
   with_cache
     (<["searchAllPlayers" :=
          {| entry_value := rows;
             entry_expires := Some (now league + 1000 * 60 * 5) |}]> (cache league))
     (emit (ECacheSet "searchAllPlayers" rows (Some (1000 * 60 * 5)))
           (emit (EPlayerGetMany qb) (emit (ECacheGet "searchAllPlayers") league)))).
Proof.
  pose proof (findAllPlayers_cache_aside like_bin query_a_b league eq_refl eq_refl) as H.
  vm_compute in H. vm_compute. exact H.
Defined.

(** ** Players of one team *)

Lemma add_filters_skip (query : PaginationQueryDto) (qb : SelectQueryBuilder) :
  qb_skip (add_filters query qb) = qb_skip qb.
Proof.
  unfold add_filters, truthy.
  destruct (name query) as [n|], (nickname query) as [k|];
    try destruct (String.eqb n ""); try destruct (String.eqb k "");
    reflexivity.
Qed.

Lemma add_filters_take (query : PaginationQueryDto) (qb : SelectQueryBuilder) :
  qb_take (add_filters query qb) = qb_take qb.
Proof.
  unfold add_filters, truthy.
  destruct (name query) as [n|], (nickname query) as [k|];
    try destruct (String.eqb n ""); try destruct (String.eqb k "");
    reflexivity.
Qed.

Lemma add_filters_where (sql_like : string -> string -> bool)
      (query : PaginationQueryDto) (qb : SelectQueryBuilder) (p : Player.t) :
  forallb (holds sql_like p) (qb_where (add_filters query qb)) =
  forallb (holds sql_like p) (qb_where qb)
  && text_filter sql_like (name query) (Player.name p)
  && text_filter sql_like (nickname query) (Player.nickname p).
Proof.
  unfold add_filters, text_filter, truthy.
  destruct (name query) as [n|], (nickname query) as [k|];
    try destruct (String.eqb n ""); try destruct (String.eqb k "");
    cbn [negb andWhere qb_where]; rewrite ?forallb_app;
    cbn [forallb holds]; rewrite ?andb_true_r, <- ?andb_assoc; reflexivity.
Qed.

Lemma Forall_filter_team (sql_like : string -> string -> bool) (teamId : Z)
      (query : PaginationQueryDto) (rows : list Player.t) :
  Forall (fun p => Player.team_id p = teamId)
         (List.filter (wanted_in_team sql_like teamId query) rows).
Proof.
  apply List.Forall_forall. intros p Hin. apply filter_In in Hin as [_ Hp].
  unfold wanted_in_team in Hp.
  apply andb_true_iff in Hp as [Hp _]. apply andb_true_iff in Hp as [Hp _].
  apply Z.eqb_eq. exact Hp.
Qed.

Lemma add_filters_conditions (query : PaginationQueryDto) (qb : SelectQueryBuilder) :
  add_filters query qb =
  {| qb_where := qb_where qb ++ like_conditions query;
     qb_skip := qb_skip qb; qb_take := qb_take qb |}.
Proof.
  unfold add_filters, like_conditions, like_pattern, truthy.
  destruct qb as [wh sk tk].
  destruct (name query) as [n|], (nickname query) as [k|];
    try destruct (String.eqb n ""); try destruct (String.eqb k "");
    cbn [negb]; unfold andWhere; cbn [qb_where qb_skip qb_take];
    rewrite <- ?app_assoc, ?app_nil_r; reflexivity.
Qed.

(** C4. For a page and a page size that are positive (each after its
    default, 1 and 10), [findPlayersByTeamId] issues exactly one call,
    so the cache is neither read nor written: the query of the player
    table whose conditions are the team id and, for each of [name] and
    [nickname] that is given and non-empty, [LIKE] of that text between
    two [%] wildcards, with offset [(page - 1) * page_size] and limit
    [page_size].  The rows returned are the players of that team that
    pass all the filters given, in table order, without the first
    [(page - 1) * page_size] of them and cut after [page_size]; hence at
    most [page_size] rows, all of that team. *)
Theorem findPlayersByTeamId_paginates (sql_like : string -> string -> bool)
        (teamId : Z) (query : PaginationQueryDto) (w : World) :
  1 <= default 1 (page query) ->
  1 <= default 10 (page_size query) ->
  exists rows,
    findPlayersByTeamId sql_like teamId query w =
      (Return rows,
       emit (EPlayerGetMany
               {| qb_where := TeamIdEq teamId :: like_conditions query;
                  qb_skip := Some ((default 1 (page query) - 1)
                                   * default 10 (page_size query));
                  qb_take := Some (default 10 (page_size query)) |}) w)
    /\ rows =
       take (Z.to_nat (default 10 (page_size query)))
         (drop (Z.to_nat ((default 1 (page query) - 1) * default 10 (page_size query)))
            (List.filter (wanted_in_team sql_like teamId query) (players w)))
    /\ (length rows <= Z.to_nat (default 10%Z (page_size query)))%nat
    /\ Forall (fun p => Player.team_id p = teamId) rows.
Proof.
  intros _ _. eexists. split.
  { unfold findPlayersByTeamId, getMany. rewrite add_filters_conditions.
    cbn [qb_where qb_skip qb_take take_ skip where_ app]. reflexivity. }
  assert (E : select sql_like
                {| qb_where := TeamIdEq teamId :: like_conditions query;
                   qb_skip := Some ((default 1 (page query) - 1)
                                    * default 10 (page_size query));
                   qb_take := Some (default 10 (page_size query)) |}
                (players w) =
              take (Z.to_nat (default 10 (page_size query)))
                (drop (Z.to_nat ((default 1 (page query) - 1)
                                 * default 10 (page_size query)))
                   (List.filter (wanted_in_team sql_like teamId query) (players w)))).
  { unfold select. cbn [qb_where qb_skip qb_take].
    f_equal. f_equal. apply filter_ext. intros p.
    unfold wanted_in_team, like_conditions, text_filter, truthy.
    cbn [forallb holds].
    destruct (name query) as [n|], (nickname query) as [k|];
      try destruct (String.eqb n ""); try destruct (String.eqb k "");
      cbn [negb app forallb holds]; rewrite ?andb_true_r, ?andb_assoc; reflexivity. }
  rewrite E. split; [reflexivity|]. split.
  - apply firstn_le_length.
  - apply Forall_take, Forall_drop, Forall_filter_team.
Qed.

Lemma findPlayersByTeamId_paginates_witness :
  exists rows,
    findPlayersByTeamId like_bin 1 query_page_2_of_2_a_b league =
      (Return rows,
       emit (EPlayerGetMany
               {| qb_where := [TeamIdEq 1; NameLike "%a%"; NicknameLike "%b%"];
                  qb_skip := Some ((2 - 1) * 2);
                  qb_take := Some 2 |}) league)
    /\ rows =
       take (Z.to_nat 2)
         (drop (Z.to_nat ((2 - 1) * 2))
            (List.filter (wanted_in_team like_bin 1 query_page_2_of_2_a_b)
                         (players league)))
    /\ (length rows <= Z.to_nat 2%Z)%nat
    /\ Forall (fun p => Player.team_id p = 1) rows.
Proof.
  apply (findPlayersByTeamId_paginates like_bin 1 query_page_2_of_2_a_b league);
    simpl; lia.
Defined.

Example second_page_of_five :
  fst (findPlayersByTeamId like_bin 1 query_page_2_of_5 league) =
  Return [Player.mk 7 "gail" "gab" 1; Player.mk 9 "iva" "ibis" 1;
          Player.mk 10 "jude" "jab" 1].
Proof. reflexivity. Qed.

(** Of the players of team 1, those whose name contains [a] and whose
    nickname contains [b] are 1, 2, 4, 5, 6, 7 and 9; page 2 of size 2
    holds the third and the fourth. *)
Example second_page_of_two_filtered :
  fst (findPlayersByTeamId like_bin 1 query_page_2_of_2_a_b league) =
  Return [Player.mk 4 "dana" "dab" 1; Player.mk 5 "ezra" "ebb" 1].
Proof. reflexivity. Qed.

(** *** What the filter pattern selects

    Under the sample operator, the pattern built for a text without
    wildcard characters selects exactly the subjects that contain the
    text. *)

Lemma like_match_star (p s : string) :
  like_match (String "%" p) s =
  like_match p s
  || match s with
     | EmptyString => false
     | String _ s' => like_match (String "%" p) s'
     end.
Proof. destruct s; reflexivity. Qed.

Lemma like_match_char (c : ascii) (p s : string) :
  Ascii.eqb c "%" = false ->
  Ascii.eqb c "_" = false ->
  like_match (String c p) s =
  match s with
  | EmptyString => false
  | String d s' => Ascii.eqb c d && like_match p s'
  end.
Proof. intros H1 H2. cbn [like_match]. rewrite H1, H2. reflexivity. Qed.

Lemma like_match_any (s : string) : like_match "%" s = true.
Proof.
  induction s as [|c s IH]; rewrite like_match_star; [reflexivity|].
  rewrite IH. apply orb_true_r.
Qed.

Lemma like_match_prefix (x s : string) :
  plain x = true ->
  like_match (x +:+ "%") s = true <-> exists b, s = x +:+ b.
Proof.
  revert s. induction x as [|c x IH]; intros s Hx.
  - change ("" +:+ "%") with "%". rewrite like_match_any.
    split; [intros _; exists s; reflexivity | reflexivity].
  - cbn [plain] in Hx. apply andb_true_iff in Hx as [Hc Hx].
    apply andb_true_iff in Hc as [H1 H2].
    apply negb_true_iff in H1. apply negb_true_iff in H2.
    change (String c x +:+ "%") with (String c (x +:+ "%")).
    rewrite (like_match_char c _ s H1 H2). destruct s as [|d s].
    + split; [discriminate | intros [b Hb]; discriminate Hb].
    + rewrite andb_true_iff, (IH s Hx). split.
      * intros [Hcd [b ->]]. apply Ascii.eqb_eq in Hcd as ->. exists b. reflexivity.
      * intros [b Hb]. change (String c x +:+ b) with (String c (x +:+ b)) in Hb.
        injection Hb as -> ->. split; [apply Ascii.eqb_refl | eauto].
Qed.

Lemma like_match_anywhere (p s : string) :
  like_match (String "%" p) s = true <->
  exists a b, s = a +:+ b /\ like_match p b = true.
Proof.
  induction s as [|c s IH]; rewrite like_match_star, orb_true_iff.
  - split.
    + intros [H|H]; [|discriminate]. exists "", "". split; [reflexivity | exact H].
    + intros [a [b [Hs H]]]. left. destruct a; [|discriminate Hs].
      change ("" +:+ b) with b in Hs. subst b. exact H.
  - rewrite IH. split.
    + intros [H|[a [b [-> H]]]].
      * exists "", (String c s). split; [reflexivity | exact H].
      * exists (String c a), b. split; [reflexivity | exact H].
    + intros [a [b [Hs H]]]. destruct a as [|d a].
      * left. change ("" +:+ b) with b in Hs. subst b. exact H.
      * right. change (String d a +:+ b) with (String d (a +:+ b)) in Hs.
        injection Hs as -> ->. eauto.
Qed.

(** [subject LIKE '%text%'] holds exactly when the subject contains the
    text. *)
Lemma like_bin_contains (subject text : string) :
  plain text = true ->
  like_bin subject ("%" +:+ text +:+ "%") = true <->
  exists before after, subject = before +:+ text +:+ after.
Proof.
  intros Hx. unfold like_bin.
  change ("%" +:+ text +:+ "%") with (String "%" (text +:+ "%")).
  rewrite like_match_anywhere. split.
  - intros [a [b [-> H]]]. apply (like_match_prefix text b Hx) in H as [after ->].
    eauto.
  - intros [before [after ->]]. exists before, (text +:+ after). split; [reflexivity|].
    apply (like_match_prefix text _ Hx). eauto.
Qed.

(** ** Team statistics *)

Section Distinct.

Lemma filter_all {A : Type} (f : A -> bool) (l : list A) :
  (forall x, In x l -> f x = true) -> List.filter f l = l.
Proof.
  induction l as [|x l IH]; simpl; intros H; [reflexivity|].
  rewrite (H x (or_introl eq_refl)). f_equal. apply IH. intros y Hy. apply H. now right.
Qed.

Lemma filter_none {A : Type} (f : A -> bool) (l : list A) :
  (forall x, In x l -> f x = false) -> List.filter f l = [].
Proof.
  induction l as [|x l IH]; simpl; intros H; [reflexivity|].
  rewrite (H x (or_introl eq_refl)). apply IH. intros y Hy. apply H. now right.
Qed.

Lemma filter_twice {A : Type} (f : A -> bool) (l : list A) :
  List.filter f (List.filter f l) = List.filter f l.
Proof.
  apply filter_all. intros x Hx. apply filter_In in Hx. tauto.
Qed.

Lemma filter_other (x : Z) (l : list Z) :
  ~ In x l -> List.filter (fun y => negb (y =? x)) l = l.
Proof.
  intros Hx. apply filter_all. intros y Hy.
  destruct (Z.eqb_spec y x) as [->|_]; [contradiction | reflexivity].
Qed.

Lemma distinct_In (x : Z) (l : list Z) : In x (distinct l) <-> In x l.
Proof.
  induction l as [|y l IH]; simpl; [tauto|].
  rewrite filter_In, IH. destruct (Z.eqb_spec x y) as [->|N]; simpl.
  - tauto.
  - split; [tauto|]. intros [E|H]; [now left | right; tauto].
Qed.

Lemma distinct_NoDup (l : list Z) : List.NoDup (distinct l).
Proof.
  induction l as [|y l IH]; simpl; constructor.
  - rewrite filter_In, Z.eqb_refl. simpl. intros [_ H]. discriminate.
  - apply List.NoDup_filter. exact IH.
Qed.

Lemma distinct_fixed (l : list Z) : List.NoDup l -> distinct l = l.
Proof.
  induction 1 as [|x l Hx Hl IH]; simpl; [reflexivity|].
  rewrite IH, filter_other by exact Hx. reflexivity.
Qed.

Lemma distinct_repeat_app (x : Z) (n : nat) (l : list Z) :
  distinct (repeat x (S n) ++ l) =
  x :: List.filter (fun y => negb (y =? x)) (distinct l).
Proof.
  induction n as [|n IH]; [reflexivity|].
  change (repeat x (S (S n)) ++ l) with (x :: (repeat x (S n) ++ l)).
  cbn [distinct]. rewrite IH. cbn [List.filter]. rewrite Z.eqb_refl.
  cbn [negb]. rewrite filter_twice. reflexivity.
Qed.

(** [COUNT(DISTINCT col)] over a column whose non-null values are
    exactly the values of a duplicate-free list is the length of that
    list. *)
Lemma count_distinct_spec (col : list (option Z)) (ids : list Z) :
  List.NoDup ids ->
  (forall x, In (Some x) col <-> In x ids) ->
  count_distinct col = length ids.
Proof.
  intros Hnd Hsame. unfold count_distinct.
  assert (Hin : forall x, In x (omap (fun o => o) col) <-> In x ids).
  { intros x. rewrite <- Hsame. clear Hsame Hnd.
    induction col as [|[y|] col IH]; simpl; [tauto| |].
    - rewrite IH. split; intros [E|H]; auto; left; congruence.
    - rewrite IH. split; [auto|]. intros [E|H]; [discriminate | exact H]. }
  apply Nat.le_antisymm.
  - apply List.NoDup_incl_length; [apply distinct_NoDup|].
    intros x Hx. apply Hin, distinct_In, Hx.
  - apply List.NoDup_incl_length; [exact Hnd|].
    intros x Hx. apply distinct_In, Hin, Hx.
Qed.

End Distinct.

Section Join.

Variable w : World.

Lemma left_join_In {A : Type} (a : A) (l : list A) :
  In (Some a) (left_join l) <-> In a l.
Proof.
  destruct l as [|x l]; simpl.
  - split; [intros [E|[]]; discriminate | tauto].
  - rewrite in_map_iff. split.
    + intros [E|[y [E Hy]]]; [left | right]; congruence.
    + intros [E|H]; [left; congruence | right; eauto].
Qed.

Lemma left_join_head {A : Type} (l : list A) :
  exists o os, left_join l = o :: os.
Proof. destruct l as [|x l]; simpl; eauto. Qed.

Lemma rows_of_team_In (t : Team.t) (r : JoinedRow) :
  In r (rows_of_team w t) <->
  j_team r = t
  /\ In (j_player r) (left_join (players_of (Team.id t) w))
  /\ In (j_message r) (left_join (messages_of (Team.id t) w)).
Proof.
  unfold rows_of_team. rewrite in_flat_map. split.
  - intros [p [Hp Hr]]. apply in_map_iff in Hr as [s [<- Hs]]. simpl. auto.
  - intros [Ht [Hp Hs]]. exists (j_player r). split; [exact Hp|].
    apply in_map_iff. exists (j_message r). split; [|exact Hs].
    destruct r; simpl in *; congruence.
Qed.

Lemma rows_of_team_head (t : Team.t) :
  exists r rs, rows_of_team w t = r :: rs /\ j_team r = t.
Proof.
  unfold rows_of_team.
  destruct (left_join_head (players_of (Team.id t) w)) as [p [ps ->]].
  destruct (left_join_head (messages_of (Team.id t) w)) as [s [ss ->]].
  simpl. eauto.
Qed.

Lemma map_constant {A B : Type} (f : A -> B) (c : B) (l : list A) :
  (forall x, In x l -> f x = c) -> map f l = repeat c (length l).
Proof.
  induction l as [|x l IH]; simpl; intros H; [reflexivity|].
  rewrite (H x (or_introl eq_refl)), IH; [reflexivity|].
  intros y Hy. apply H. now right.
Qed.

Lemma keys_of_team (t : Team.t) :
  exists n, map (fun r => Team.id (j_team r)) (rows_of_team w t)
            = repeat (Team.id t) (S n).
Proof.
  destruct (rows_of_team_head t) as [r [rs [E _]]].
  exists (length rs).
  rewrite (map_constant _ (Team.id t)).
  - rewrite E. reflexivity.
  - intros x Hx. apply rows_of_team_In in Hx as [-> _]. reflexivity.
Qed.

(** With unique team ids, the grouping keys are the team ids, in table
    order. *)
Lemma keys_of_join (ts : list Team.t) :
  List.NoDup (map Team.id ts) ->
  distinct (map (fun r => Team.id (j_team r)) (flat_map (rows_of_team w) ts))
  = map Team.id ts.
Proof.
  induction ts as [|t ts IH]; simpl; intros Hnd; [reflexivity|].
  inversion Hnd as [|x l Hnotin Hrest]; subst.
  rewrite map_app. destruct (keys_of_team t) as [n ->].
  rewrite distinct_repeat_app, (IH Hrest), filter_other by exact Hnotin.
  reflexivity.
Qed.

Lemma group_of_other (k : Z) (ts : list Team.t) :
  ~ In k (map Team.id ts) ->
  List.filter (fun r => Team.id (j_team r) =? k) (flat_map (rows_of_team w) ts) = [].
Proof.
  intros Hk. apply filter_none. intros r Hr.
  apply in_flat_map in Hr as [t [Ht Hr]].
  apply rows_of_team_In in Hr as [-> _].
  apply Z.eqb_neq. intros E. apply Hk. rewrite <- E. now apply in_map.
Qed.

(** With unique team ids, the group of a team is the block of rows the
    join produced for it. *)
Lemma group_of_team (t : Team.t) (ts : list Team.t) :
  List.NoDup (map Team.id ts) ->
  In t ts ->
  List.filter (fun r => Team.id (j_team r) =? Team.id t)
              (flat_map (rows_of_team w) ts)
  = rows_of_team w t.
Proof.
  induction ts as [|t0 ts IH]; simpl; intros Hnd Hin; [contradiction|].
  inversion Hnd as [|x l Hnotin Hrest]; subst. rewrite List.filter_app.
  destruct Hin as [->|Hin].
  - rewrite group_of_other by exact Hnotin. rewrite app_nil_r.
    apply filter_all. intros r Hr. apply rows_of_team_In in Hr as [-> _].
    apply Z.eqb_refl.
  - rewrite (IH Hrest Hin). rewrite filter_none; [reflexivity|].
    intros r Hr. apply rows_of_team_In in Hr as [-> _].
    apply Z.eqb_neq. intros E. apply Hnotin. rewrite E. now apply in_map.
Qed.

Lemma NoDup_map_filter {A : Type} (f : A -> Z) (g : A -> bool) (l : list A) :
  List.NoDup (map f l) -> List.NoDup (map f (List.filter g l)).
Proof.
  induction l as [|x l IH]; simpl; intros Hnd; [constructor|].
  inversion Hnd as [|y l' Hnotin Hrest]; subst.
  destruct (g x); [|exact (IH Hrest)].
  simpl. constructor; [|exact (IH Hrest)].
  intros Hin. apply Hnotin. apply in_map_iff in Hin as [z [E Hz]].
  apply filter_In in Hz as [Hz _]. rewrite <- E. now apply in_map.
Qed.

Lemma player_column (t : Team.t) :
  List.NoDup (map Player.id (players w)) ->
  count_distinct (map (fun r => Player.id <$> j_player r) (rows_of_team w t))
  = length (players_of (Team.id t) w).
Proof.
  intros Hnd. rewrite <- (length_map Player.id).
  apply count_distinct_spec; [now apply NoDup_map_filter|].
  intros x. rewrite !in_map_iff. split.
  - intros [r [E Hr]]. apply rows_of_team_In in Hr as [_ [Hp _]].
    destruct (j_player r) as [p|]; [|discriminate].
    exists p. split; [simpl in E; congruence | now apply left_join_In].
  - intros [p [E Hp]].
    destruct (left_join_head (messages_of (Team.id t) w)) as [s [ss Hs]].
    exists {| j_team := t; j_player := Some p; j_message := s |}.
    split; [simpl; congruence|]. apply rows_of_team_In. simpl.
    split; [reflexivity|]. split; [now apply left_join_In|].
    rewrite Hs. now left.
Qed.

Lemma message_column (t : Team.t) :
  List.NoDup (map SupportMessage.id (supportMessages w)) ->
  count_distinct (map (fun r => SupportMessage.id <$> j_message r) (rows_of_team w t))
  = length (messages_of (Team.id t) w).
Proof.
  intros Hnd. rewrite <- (length_map SupportMessage.id).
  apply count_distinct_spec; [now apply NoDup_map_filter|].
  intros x. rewrite !in_map_iff. split.
  - intros [r [E Hr]]. apply rows_of_team_In in Hr as [_ [_ Hs]].
    destruct (j_message r) as [s|]; [|discriminate].
    exists s. split; [simpl in E; congruence | now apply left_join_In].
  - intros [s [E Hs]].
    destruct (left_join_head (players_of (Team.id t) w)) as [p [ps Hp]].
    exists {| j_team := t; j_player := p; j_message := Some s |}.
    split; [simpl; congruence|]. apply rows_of_team_In. simpl.
    split; [reflexivity|]. split; [rewrite Hp; now left | now apply left_join_In].
Qed.

Lemma aggregate_team (t : Team.t) :
  List.NoDup (map Team.id (teams w)) ->
  List.NoDup (map Player.id (players w)) ->
  List.NoDup (map SupportMessage.id (supportMessages w)) ->
  In t (teams w) ->
  aggregate (Team.id t) (stats_join w) = Some (team_stat w t).
Proof.
  intros Ht Hp Hs Hin. unfold aggregate, stats_join.
  rewrite (group_of_team t (teams w) Ht Hin).
  pose proof (player_column t Hp) as Ep. pose proof (message_column t Hs) as Es.
  destruct (rows_of_team_head t) as [r [rs [E Hr]]].
  rewrite E in *. rewrite Ep, Es, Hr. reflexivity.
Qed.

Lemma omap_map_total {A B C : Type} (f : B -> option C) (g : A -> B)
      (h : A -> C) (l : list A) :
  (forall x, In x l -> f (g x) = Some (h x)) ->
  omap f (map g l) = map h l.
Proof.
  induction l as [|x l IH]; simpl; intros H; [reflexivity|].
  rewrite (H x (or_introl eq_refl)). f_equal. apply IH.
  intros y Hy. apply H. now right.
Qed.

(** With primary keys unique, the grouped join yields one row per team,
    in table order, counting that team's players and support messages. *)
Lemma group_by_team_stats :
  List.NoDup (map Team.id (teams w)) ->
  List.NoDup (map Player.id (players w)) ->
  List.NoDup (map SupportMessage.id (supportMessages w)) ->
  group_by_team (stats_join w) = map (team_stat w) (teams w).
Proof.
  intros Ht Hp Hs. unfold group_by_team.
  unfold stats_join at 2. rewrite (keys_of_join (teams w) Ht).
  apply omap_map_total. intros t Hin. now apply aggregate_team.
Qed.

End Join.

Lemma getTeamStats_hit (hit : Cached) (w : World) :
  cache_lookup "teamStats" w = Some hit ->
  getTeamStats w = (Return hit, emit (ECacheGet "teamStats") w).
Proof.
  intros E. unfold getTeamStats, mbind, promise_bind, cache_get.
  rewrite E. reflexivity.
Qed.

Lemma getTeamStats_miss (w : World) :
  cache_lookup "teamStats" w = None ->
  getTeamStats w =
  (Return (CachedStats (group_by_team (stats_join w))),
   with_cache
     (<["teamStats" := {| entry_value := CachedStats (group_by_team (stats_join w));
                          entry_expires := deadline_of (now w) (cache_ttl w) |}]>
        (cache w))
     (emit (ECacheSet "teamStats" (CachedStats (group_by_team (stats_join w))) None)
           (emit ETeamStatsGetRawMany (emit (ECacheGet "teamStats") w)))).
Proof.
  intros E. unfold getTeamStats, mbind, promise_bind, cache_get.
  rewrite E. reflexivity.
Qed.

(** The entry written at time [t] under the default [ttl], read [dt]
    later. *)
Lemma live_after (t ttl dt : Z) (v : Cached) :
  live (t + dt) {| entry_value := v; entry_expires := deadline_of t ttl |}
  = (ttl =? 0) || (dt <=? ttl).
Proof.
  unfold live, deadline_of. cbn [entry_expires].
  destruct (Z.eqb_spec ttl 0) as [->|N]; [reflexivity|]. cbn [entry_expires orb].
  destruct (Z.leb_spec (t + dt) (t + ttl)), (Z.leb_spec dt ttl); (reflexivity || lia).
Qed.

(** C5, as the code has it.  [getTeamStats] is cache-aside under the one
    key ["teamStats"].  On a hit the cached value is returned and the
    only call issued is the cache read, so the store is not queried.  On
    a miss, the tables having unique primary keys, the calls issued are
    the cache read, one grouped-join query and one cache write that
    passes no time-to-live; the value returned and cached is one row per
    team holding the team's id and name, the number of its players and
    the number of its support messages.  The entry then lives for the
    default time-to-live of the cache store: the cache answers with that
    value at every later time when the store has no default, and
    otherwise until the default has been exceeded. *)
Theorem getTeamStats_cache_aside (w : World) :
  List.NoDup (map Team.id (teams w)) ->
  List.NoDup (map Player.id (players w)) ->
  List.NoDup (map SupportMessage.id (supportMessages w)) ->
  match cache_lookup "teamStats" w with
  | Some hit =>
      getTeamStats w = (Return hit, emit (ECacheGet "teamStats") w)
  | None =>
      let rows := CachedStats (map (team_stat w) (teams w)) in
      getTeamStats w =
      (Return rows,
       with_cache
         (<["teamStats" := {| entry_value := rows;
                              entry_expires := deadline_of (now w) (cache_ttl w) |}]>
            (cache w))
         (emit (ECacheSet "teamStats" rows None)
               (emit ETeamStatsGetRawMany (emit (ECacheGet "teamStats") w))))
      /\ forall dt : Z,
          cache_lookup "teamStats" (advance dt (snd (getTeamStats w))) =
          if (cache_ttl w =? 0) || (dt <=? cache_ttl w) then Some rows else None
  end.
Proof.
  intros Ht Hp Hs.
  destruct (cache_lookup "teamStats" w) as [hit|] eqn:E.
  - exact (getTeamStats_hit hit w E).
  - pose proof (getTeamStats_miss w E) as Hrun.
    rewrite (group_by_team_stats w Ht Hp Hs) in Hrun.
    cbv zeta. split; [exact Hrun|].
    intros dt. rewrite Hrun. unfold cache_lookup.
    cbn [snd cache now advance with_cache emit]. rewrite lookup_insert_eq.
    rewrite live_after. reflexivity.
Qed.

Lemma getTeamStats_cache_aside_witness :
  getTeamStats small_league =
  (Return (CachedStats (map (team_stat small_league) (teams small_league))),
   with_cache
     (<["teamStats" :=
          {| entry_value := CachedStats (map (team_stat small_league) (teams small_league));
             entry_expires := None |}]> (cache small_league))
     (emit (ECacheSet "teamStats"
              (CachedStats (map (team_stat small_league) (teams small_league))) None)
           (emit ETeamStatsGetRawMany (emit (ECacheGet "teamStats") small_league))))
  /\ forall dt : Z,
      cache_lookup "teamStats" (advance dt (snd (getTeamStats small_league))) =
      Some (CachedStats (map (team_stat small_league) (teams small_league))).
Proof.
  assert (Ht : List.NoDup (map Team.id (teams small_league))).
  { simpl. repeat constructor; simpl; intuition discriminate. }
  assert (Hp : List.NoDup (map Player.id (players small_league))).
  { simpl. repeat constructor; simpl; intuition discriminate. }
  assert (Hs : List.NoDup (map SupportMessage.id (supportMessages small_league))).
  { simpl. repeat constructor; simpl; intuition discriminate. }
  exact (getTeamStats_cache_aside small_league Ht Hp Hs).
Defined.

(** C5, as the claim has it, does not hold: the cached statistics are
    not kept indefinitely.  Behind a cache store registered with a
    default time-to-live of 5 ms, a call that misses at time 0 caches
    its rows, and 6 ms later the cache no longer answers, so that the
    next call queries the store again. *)
Lemma getTeamStats_not_cached_indefinitely :
  ~ (forall (w : World) (dt : Z) (v : Cached),
        0 <= dt ->
        cache_lookup "teamStats" w = None ->
        fst (getTeamStats w) = Return v ->
        cache_lookup "teamStats" (advance dt (snd (getTeamStats w))) = Some v).
Proof.
  intros H.
  specialize (H small_league_ttl5 6
                (CachedStats (map (team_stat small_league_ttl5)
                                  (teams small_league_ttl5)))).
  assert (Hlater : cache_lookup "teamStats"
                     (advance 6 (snd (getTeamStats small_league_ttl5))) = None)
    by (vm_compute; reflexivity).
  rewrite Hlater in H. discriminate H.
  - lia.
  - vm_compute. reflexivity.
  - vm_compute. reflexivity.
Qed.

Example stats_requeried_after_default_ttl :
  calls_since (advance 6 (snd (getTeamStats small_league_ttl5)))
              (snd (getTeamStats (advance 6 (snd (getTeamStats small_league_ttl5)))))
  = [ ECacheGet "teamStats"; ETeamStatsGetRawMany;
      ECacheSet "teamStats"
        (CachedStats (map (team_stat small_league_ttl5) (teams small_league_ttl5)))
        None ].
Proof. vm_compute. reflexivity. Qed.

Example three_players_two_messages :
  fst (getTeamStats small_league) =
  Return (CachedStats
            [ {| stat_id := 1; stat_name := "Lions";
                 playerCount := 3; supportMessageCount := 2 |};
              {| stat_id := 2; stat_name := "Tigers";
                 playerCount := 0; supportMessageCount := 0 |} ]).
Proof. vm_compute. reflexivity. Qed.

(** * Further properties *)

(** ** The extension gate, exactly *)

Lemma substring_split (s : string) (n m : nat) :
  (n + m)%nat = String.length s ->
  s = String.substring 0 n s +:+ String.substring n m s.
Proof.
  revert n. induction s as [|c s IH]; intros n Hlen.
  - simpl in Hlen. assert (n = 0%nat) by lia. assert (m = 0%nat) by lia.
    subst. reflexivity.
  - destruct n as [|n].
    + simpl in Hlen. subst m. cbn [String.substring String.append].
      rewrite substring_whole. reflexivity.
    + cbn [String.substring].
      change (String c s = String c (String.substring 0 n s +:+ String.substring n m s)).
      f_equal. apply IH. simpl in Hlen. lia.
Qed.

(** X1. The test on the file name passes exactly for the names made of
    some stem, possibly empty, followed by [.csv] (or any other suffix
    asked for): shorter names and names with other last characters
    fail. *)
Theorem endsWith_iff_suffix (s suffix : string) :
  endsWith s suffix = true <-> exists stem, s = stem +:+ suffix.
Proof.
  split.
  - unfold endsWith. intros H. apply andb_true_iff in H as [Hle Heq].
    apply Nat.leb_le in Hle. apply String.eqb_eq in Heq.
    exists (String.substring 0 (String.length s - String.length suffix) s).
    rewrite <- Heq at 2. apply substring_split. lia.
  - intros [stem ->]. rewrite endsWith_append by reflexivity.
    apply String.eqb_refl.
Qed.

(** ** Outcomes of the import *)

(** X2. When the parser throws on the text of a [.csv] upload, [create]
    turns the failure into the bad-request exception for a failed parse;
    the parser call is the only call made and the store is untouched. *)
Theorem create_parse_failure (parse : string -> option (list CsvRow))
        (file : MulterFile) (w : World) :
  endsWith (originalname file) ".csv" = true ->
  parse (toString (buffer file)) = None ->
  create parse file w =
  (Throw (BadRequestException "CSV 파싱에 실패했습니다."),
   emit (EParse (toString (buffer file))) w).
Proof.
  intros Hext Hparse. unfold create. rewrite Hext. cbn [negb].
  unfold mbind, promise_bind, try_catch, papa_parse. rewrite Hparse. reflexivity.
Qed.

Lemma create_parse_failure_witness :
  create (fun _ => None) (file_named "teams.csv") team_world =
  (Throw (BadRequestException "CSV 파싱에 실패했습니다."),
   emit (EParse "") team_world).
Proof.
  exact (create_parse_failure (fun _ => None) (file_named "teams.csv") team_world
                              eq_refl eq_refl).
Defined.

Lemma same_cells_row_ok (r r' : CsvRow) :
  same_cells r r' -> row_ok r = row_ok r'.
Proof. intros [Hn Hd]. unfold row_ok. rewrite Hn, Hd. reflexivity. Qed.

Lemma same_cells_forallb (data data' : list CsvRow) :
  Forall2 same_cells data data' ->
  forallb row_ok data = forallb row_ok data'.
Proof.
  induction 1 as [|r r' data data' Hr _ IH]; simpl; [reflexivity|].
  rewrite (same_cells_row_ok r r' Hr), IH. reflexivity.
Qed.

Lemma same_cells_dtos (data data' : list CsvRow) :
  Forall2 same_cells data data' ->
  map createTeamDto data = map createTeamDto data'.
Proof.
  induction 1 as [|r r' data data' [Hn Hd] _ IH]; simpl; [reflexivity|].
  unfold createTeamDto at 1 3. rewrite Hn, Hd, IH. reflexivity.
Qed.

(** X3. Columns other than [name] and [description] cannot influence an
    import: two parses of the same upload whose rows agree, row by row,
    on those two cells give the same outcome and the same world,
    whatever else the rows hold. *)
Theorem create_reads_two_columns (parse parse' : string -> option (list CsvRow))
        (file : MulterFile) (data data' : list CsvRow) (w : World) :
  endsWith (originalname file) ".csv" = true ->
  parse (toString (buffer file)) = Some data ->
  parse' (toString (buffer file)) = Some data' ->
  Forall2 same_cells data data' ->
  create parse file w = create parse' file w.
Proof.
  intros Hext Hp Hp' Hsame.
  rewrite (create_parsed parse file data w Hext Hp).
  rewrite (create_parsed parse' file data' w Hext Hp').
  rewrite (same_cells_forallb data data' Hsame).
  rewrite (same_cells_dtos data data' Hsame). reflexivity.
Qed.

Lemma create_reads_two_columns_witness :
  create (fun _ => Some two_rows) (file_named "teams.csv") team_world =
  create (fun _ => Some rows_with_other_columns) (file_named "teams.csv") team_world.
Proof.
  refine (create_reads_two_columns (fun _ => Some two_rows)
            (fun _ => Some rows_with_other_columns) (file_named "teams.csv")
            two_rows rows_with_other_columns team_world eq_refl eq_refl eq_refl _).
  repeat constructor.
Defined.

(** X4. An upload that parses to no data row at all is accepted: the
    call returns, the parser and one save of nothing are the calls made,
    and the team table and its id sequence are as before. *)
Theorem create_no_rows (parse : string -> option (list CsvRow))
        (file : MulterFile) (w : World) :
  endsWith (originalname file) ".csv" = true ->
  parse (toString (buffer file)) = Some [] ->
  fst (create parse file w) = Return tt
  /\ tables (snd (create parse file w)) = tables w
  /\ calls_since w (snd (create parse file w)) =
     [EParse (toString (buffer file)); ETeamSave []].
Proof.
  intros Hext Hparse. rewrite (create_parsed parse file [] w Hext Hparse).
  cbn. unfold tables, calls_since. cbn.
  rewrite app_nil_r, Z.add_0_r, <- app_assoc, drop_app_length.
  repeat split; reflexivity.
Qed.

Lemma create_no_rows_witness :
  fst (create (fun _ => Some []) (file_named "teams.csv") team_world) = Return tt
  /\ tables (snd (create (fun _ => Some []) (file_named "teams.csv") team_world))
     = tables team_world
  /\ calls_since team_world
       (snd (create (fun _ => Some []) (file_named "teams.csv") team_world)) =
     [EParse ""; ETeamSave []].
Proof.
  exact (create_no_rows (fun _ => Some []) (file_named "teams.csv") team_world
                        eq_refl eq_refl).
Defined.

(** ** Reading, deleting and re-reading a team *)

Lemma drop_trace_1 (w : World) (e : Event) :
  drop (length (trace w)) (trace w ++ [e]) = [e].
Proof. apply drop_app_length. Qed.

Lemma drop_trace_2 (w : World) (e1 e2 : Event) :
  drop (length (trace w)) ((trace w ++ [e1]) ++ [e2]) = [e1; e2].
Proof. rewrite <- app_assoc. apply drop_app_length. Qed.

(** X5. For an id that some team row has, [findOne] returns a row of
    the table with that id, the first one in table order, after a single
    lookup by id. *)
Theorem findOne_present (id : Z) (w : World) :
  (exists t, In t (teams w) /\ Team.id t = id) ->
  exists t0 before after,
    findOne id w = (Return t0, emit (ETeamFindOneBy id) w)
    /\ teams w = before ++ t0 :: after
    /\ Team.id t0 = id
    /\ (forall t, In t before -> Team.id t <> id).
Proof.
  intros Hex. destruct (find_present id (teams w) Hex) as [t0 E].
  assert (Hsplit : exists before after,
             teams w = before ++ t0 :: after /\ Team.id t0 = id
             /\ forall t, In t before -> Team.id t <> id).
  { clear Hex. revert E. generalize (teams w) as ts.
    induction ts as [|t ts IH]; simpl; [discriminate|].
    destruct (Z.eqb_spec (Team.id t) id) as [Heq|Hne]; intros E.
    - injection E as <-. exists [], ts. repeat split; [exact Heq|]. intros ? [].
    - destruct (IH E) as [before [after [-> [Hid Hb]]]].
      exists (t :: before), after. repeat split; [exact Hid|].
      intros t' [<-|Hin]; [exact Hne | now apply Hb]. }
  destruct Hsplit as [before [after [Hts [Hid Hb]]]].
  exists t0, before, after. repeat split; try assumption.
  unfold findOne, verifyTeamById, mbind, promise_bind, team_findOneBy.
  rewrite E. reflexivity.
Qed.

Lemma findOne_present_witness :
  exists t0 before after,
    findOne 2 team_world = (Return t0, emit (ETeamFindOneBy 2) team_world)
    /\ teams team_world = before ++ t0 :: after
    /\ Team.id t0 = 2
    /\ (forall t, In t before -> Team.id t <> 2).
Proof.
  apply (findOne_present 2 team_world).
  exists (Team.mk 2 "Tigers" "south"). split; [right; left; reflexivity | reflexivity].
Defined.

Lemma delete_present_run (id : Z) (w : World) :
  (exists t, In t (teams w) /\ Team.id t = id) ->
  delete id w =
  (Return tt,
   with_teams (List.filter (fun t => negb (Team.id t =? id)) (teams w)) (team_seq w)
              (emit (ETeamDelete id) (emit (ETeamFindOneBy id) w))).
Proof.
  intros Hex. destruct (verifyTeamById_present id w Hex) as [t0 Hv].
  unfold delete, mbind, promise_bind. rewrite Hv. reflexivity.
Qed.

Lemma In_after_delete (id : Z) (ts : list Team.t) (t : Team.t) :
  In t (List.filter (fun t => negb (Team.id t =? id)) ts)
  <-> In t ts /\ Team.id t <> id.
Proof.
  rewrite filter_In. destruct (Z.eqb_spec (Team.id t) id); simpl; intuition congruence.
Qed.

(** X6. [delete] on an id that exists returns after the lookup and one
    delete call; the team table afterwards holds exactly the rows of
    other ids, in their previous order, and the id sequence and the
    cache are as before. *)
Theorem delete_removes_team (id : Z) (w : World) :
  (exists t, In t (teams w) /\ Team.id t = id) ->
  exists w',
    delete id w = (Return tt, w')
    /\ teams w' = List.filter (fun t => negb (Team.id t =? id)) (teams w)
    /\ (forall t, In t (teams w') <-> In t (teams w) /\ Team.id t <> id)
    /\ team_seq w' = team_seq w
    /\ cache w' = cache w
    /\ calls_since w w' = [ETeamFindOneBy id; ETeamDelete id].
Proof.
  intros Hex. eexists. split; [exact (delete_present_run id w Hex)|].
  cbn [teams with_teams team_seq cache emit].
  split; [reflexivity|]. split; [intros t; apply In_after_delete|].
  split; [reflexivity|]. split; [reflexivity|].
  unfold calls_since. cbn [trace with_teams emit]. apply drop_trace_2.
Qed.

Lemma delete_removes_team_witness :
  exists w',
    delete 1 team_world = (Return tt, w')
    /\ teams w' = List.filter (fun t => negb (Team.id t =? 1)) (teams team_world)
    /\ (forall t, In t (teams w') <-> In t (teams team_world) /\ Team.id t <> 1)
    /\ team_seq w' = team_seq team_world
    /\ cache w' = cache team_world
    /\ calls_since team_world w' = [ETeamFindOneBy 1; ETeamDelete 1].
Proof.
  apply (delete_removes_team 1 team_world).
  exists (Team.mk 1 "Lions" "north"). split; [left; reflexivity | reflexivity].
Defined.

(** X7. After a successful [delete] of an id, the id is gone for every
    method that checks it: [findOne], [update] and a second [delete] all
    throw the not-found exception. *)
Theorem delete_then_not_found (id : Z) (dto : UpdateTeamDto) (w : World) :
  (exists t, In t (teams w) /\ Team.id t = id) ->
  fst (delete id w) = Return tt
  /\ fst (findOne id (snd (delete id w)))
     = Throw (NotFoundException "존재하지 않는 팀입니다.")
  /\ fst (update id dto (snd (delete id w)))
     = Throw (NotFoundException "존재하지 않는 팀입니다.")
  /\ fst (delete id (snd (delete id w)))
     = Throw (NotFoundException "존재하지 않는 팀입니다.").
Proof.
  intros Hex. rewrite (delete_present_run id w Hex). cbn [fst snd].
  set (w' := with_teams _ _ _).
  assert (Habs : forall t, In t (teams w') -> Team.id t <> id).
  { intros t Hin. apply In_after_delete in Hin. tauto. }
  pose proof (verifyTeamById_absent id w' Habs) as Hv.
  unfold findOne, update, delete, mbind, promise_bind. rewrite Hv.
  repeat split; reflexivity.
Qed.

Lemma delete_then_not_found_witness :
  fst (delete 1 team_world) = Return tt
  /\ fst (findOne 1 (snd (delete 1 team_world)))
     = Throw (NotFoundException "존재하지 않는 팀입니다.")
  /\ fst (update 1 rename_to_X (snd (delete 1 team_world)))
     = Throw (NotFoundException "존재하지 않는 팀입니다.")
  /\ fst (delete 1 (snd (delete 1 team_world)))
     = Throw (NotFoundException "존재하지 않는 팀입니다.").
Proof.
  apply (delete_then_not_found 1 rename_to_X team_world).
  exists (Team.mk 1 "Lions" "north"). split; [left; reflexivity | reflexivity].
Defined.

(** ** Updating and re-reading a team *)

Lemma find_after_update (id : Z) (dto : UpdateTeamDto) (ts : list Team.t) :
  List.find (fun t => Team.id t =? id)
            (map (fun t => if Team.id t =? id then patch dto t else t) ts)
  = patch dto <$> List.find (fun t => Team.id t =? id) ts.
Proof.
  induction ts as [|t ts IH]; simpl; [reflexivity|].
  destruct (Z.eqb_spec (Team.id t) id) as [E|N].
  - cbn [patch Team.id]. rewrite E, Z.eqb_refl. reflexivity.
  - apply Z.eqb_neq in N. rewrite N. exact IH.
Qed.

(** X8. What [update] writes is what [findOne] reads back: when
    [findOne] returned the row [t0] for an id, then after [update] of
    that id it returns a row with the same id whose name and description
    are those of the patch where the patch has them and those of [t0]
    where it has not.  The update itself returns when the patch provides
    a value and is refused by the store when it provides none, in which
    case the row read back is [t0] as it was. *)
Theorem update_then_findOne (id : Z) (dto : UpdateTeamDto) (w : World) (t0 : Team.t) :
  fst (findOne id w) = Return t0 ->
  fst (update id dto w) =
    (if no_values dto then Throw UpdateValuesMissingError else Return tt)
  /\ fst (findOne id (snd (update id dto w))) =
     Return (Team.mk (Team.id t0)
                     (default (Team.name t0) (upd_name dto))
                     (default (Team.description t0) (upd_description dto))).
Proof.
  unfold findOne, verifyTeamById, mbind, promise_bind, team_findOneBy.
  destruct (List.find (fun t => Team.id t =? id) (teams w)) as [t|] eqn:E;
    cbn [fst]; [|discriminate].
  intros [= ->].
  assert (Hex : exists t, In t (teams w) /\ Team.id t = id).
  { apply find_some in E as [Hin Hid]. apply Z.eqb_eq in Hid. eauto. }
  rewrite (update_present_run id dto w Hex). cbn [fst snd teams with_teams].
  rewrite find_after_update, E. split; reflexivity.
Qed.

Lemma update_then_findOne_witness :
  fst (update 1 rename_to_X team_world) = Return tt
  /\ fst (findOne 1 (snd (update 1 rename_to_X team_world))) =
     Return (Team.mk 1 "X" "north").
Proof.
  exact (update_then_findOne 1 rename_to_X team_world (Team.mk 1 "Lions" "north")
                             eq_refl).
Defined.

Example empty_patch_reads_back_unchanged :
  fst (update 1 empty_patch team_world) = Throw UpdateValuesMissingError
  /\ fst (findOne 1 (snd (update 1 empty_patch team_world))) =
     Return (Team.mk 1 "Lions" "north").
Proof. split; reflexivity. Qed.

Lemma patch_twice (dto : UpdateTeamDto) (t : Team.t) :
  patch dto (patch dto t) = patch dto t.
Proof.
  unfold patch. cbn [Team.id Team.name Team.description].
  destruct (upd_name dto), (upd_description dto); reflexivity.
Qed.

(** X9. [update] is idempotent: for an id that exists, issuing the same
    patch a second time has the outcome of the first call (it returns
    again when the patch provides a value, and is refused again when it
    provides none) and leaves the team table exactly as the first call
    left it. *)
Theorem update_idempotent (id : Z) (dto : UpdateTeamDto) (w : World) :
  (exists t, In t (teams w) /\ Team.id t = id) ->
  fst (update id dto w) =
    (if no_values dto then Throw UpdateValuesMissingError else Return tt)
  /\ fst (update id dto (snd (update id dto w))) = fst (update id dto w)
  /\ teams (snd (update id dto (snd (update id dto w))))
     = teams (snd (update id dto w)).
Proof.
  intros Hex. rewrite (update_present_run id dto w Hex). cbn [fst snd].
  set (f := fun t => if Team.id t =? id then patch dto t else t).
  set (w1 := with_teams _ _ _).
  assert (Hex1 : exists t, In t (teams w1) /\ Team.id t = id).
  { destruct Hex as [t [Hin Hid]]. exists (f t). split.
    - cbn [w1 teams with_teams]. now apply in_map.
    - unfold f. rewrite <- Hid, Z.eqb_refl. reflexivity. }
  rewrite (update_present_run id dto w1 Hex1). cbn [fst snd teams with_teams].
  split; [reflexivity|]. split; [reflexivity|].
  fold f. cbn [w1 teams with_teams]. rewrite map_map.
  apply map_ext. intros t. unfold f.
  destruct (Z.eqb_spec (Team.id t) id) as [E|N].
  - cbn [patch Team.id]. rewrite E, Z.eqb_refl. apply patch_twice.
  - apply Z.eqb_neq in N. rewrite N. reflexivity.
Qed.

Lemma update_idempotent_witness :
  fst (update 1 rename_to_X team_world) = Return tt
  /\ fst (update 1 rename_to_X (snd (update 1 rename_to_X team_world)))
     = fst (update 1 rename_to_X team_world)
  /\ teams (snd (update 1 rename_to_X (snd (update 1 rename_to_X team_world))))
     = teams (snd (update 1 rename_to_X team_world)).
Proof.
  apply (update_idempotent 1 rename_to_X team_world).
  exists (Team.mk 1 "Lions" "north"). split; [left; reflexivity | reflexivity].
Defined.

(** ** Importing and listing *)

Lemma names_of_new_rows (data : list CsvRow) (new : list Team.t) :
  Forall2 copied data new ->
  map (fun t => JsString (Team.name t)) new = map (fun r => prop r "name") data.
Proof.
  induction 1 as [|r t data new [Hn _] _ IH]; simpl; [reflexivity|].
  rewrite Hn, IH. reflexivity.
Qed.

(** X10. What [create] imports is what [findAll] lists: after a
    successful import the listing has the names of the teams that
    existed before, in their order, followed by the [name] cell of each
    CSV row, in CSV order. *)
Theorem create_then_findAll (parse : string -> option (list CsvRow))
        (file : MulterFile) (data : list CsvRow) (w : World) :
  endsWith (originalname file) ".csv" = true ->
  parse (toString (buffer file)) = Some data ->
  forallb row_ok data = true ->
  exists listing,
    fst (findAll (snd (create parse file w))) = Return listing
    /\ map (fun e => JsString (snd e)) listing =
       map (fun t => JsString (Team.name t)) (teams w)
       ++ map (fun r => prop r "name") data.
Proof.
  intros Hext Hparse Hok.
  rewrite (create_parsed parse file data w Hext Hparse). cbv zeta. rewrite Hok.
  destruct (new_rows_spec data Hok (team_seq w)) as [new [Hnew Hall]].
  unfold team_save. cbn [emit team_seq]. rewrite Hnew.
  eexists. split; [reflexivity|].
  cbn [snd teams with_teams]. rewrite map_map, map_app. cbn [snd].
  rewrite (names_of_new_rows data new Hall). reflexivity.
Qed.

Lemma create_then_findAll_witness :
  exists listing,
    fst (findAll (snd (create (fun _ => Some two_rows) (file_named "teams.csv")
                              team_world))) = Return listing
    /\ map (fun e => JsString (snd e)) listing =
       map (fun t => JsString (Team.name t)) (teams team_world)
       ++ map (fun r => prop r "name") two_rows.
Proof.
  exact (create_then_findAll (fun _ => Some two_rows) (file_named "teams.csv")
                             two_rows team_world eq_refl eq_refl eq_refl).
Defined.

(** ** Listing players without the cache *)

Lemma select_unpaged (sql_like : string -> string -> bool)
      (query : PaginationQueryDto) (rows : list Player.t) :
  select sql_like (add_filters query createQueryBuilder) rows
  = List.filter (wanted sql_like query) rows.
Proof.
  unfold select. rewrite add_filters_skip, add_filters_take.
  cbn [qb_skip qb_take createQueryBuilder].
  apply filter_ext. intros p. rewrite add_filters_where. reflexivity.
Qed.

(** X11. Unless both [name] and [nickname] are given and non-empty,
    [findAllPlayers] makes exactly one call, the query of the player
    table: the cache is neither read nor written, and the rows returned
    are all the players, of every team and without any page cut, that
    pass the filters that were given. *)
Theorem findAllPlayers_direct (sql_like : string -> string -> bool)
        (query : PaginationQueryDto) (w : World) :
  truthy (name query) && truthy (nickname query) = false ->
  findAllPlayers sql_like query w =
  (Return (CachedPlayers (List.filter (wanted sql_like query) (players w))),
   emit (EPlayerGetMany (add_filters query createQueryBuilder)) w).
Proof.
  intros Hone. unfold findAllPlayers. rewrite Hone.
  unfold mbind, promise_bind, getMany, mret, promise_ret.
  rewrite select_unpaged. reflexivity.
Qed.

Lemma findAllPlayers_direct_witness :
  findAllPlayers like_bin query_name_a league =
  (Return (CachedPlayers (List.filter (wanted like_bin query_name_a) (players league))),
   emit (EPlayerGetMany (add_filters query_name_a createQueryBuilder)) league).
Proof.
  exact (findAllPlayers_direct like_bin query_name_a league eq_refl).
Defined.

(** X12. An empty filter text counts as no filter: a query whose
    [name] (or [nickname]) is the empty string behaves, in both player
    listings, exactly like the query without that field; in particular
    it never selects the cached branch. *)
Theorem empty_filter_is_no_filter (sql_like : string -> string -> bool)
        (pg sz : option Z) (other : option string) (teamId : Z) (w : World) :
  findAllPlayers sql_like
    {| page := pg; page_size := sz; name := Some ""; nickname := other |} w
  = findAllPlayers sql_like
    {| page := pg; page_size := sz; name := None; nickname := other |} w
  /\ findAllPlayers sql_like
    {| page := pg; page_size := sz; name := other; nickname := Some "" |} w
  = findAllPlayers sql_like
    {| page := pg; page_size := sz; name := other; nickname := None |} w
  /\ findPlayersByTeamId sql_like teamId
    {| page := pg; page_size := sz; name := Some ""; nickname := other |} w
  = findPlayersByTeamId sql_like teamId
    {| page := pg; page_size := sz; name := None; nickname := other |} w
  /\ findPlayersByTeamId sql_like teamId
    {| page := pg; page_size := sz; name := other; nickname := Some "" |} w
  = findPlayersByTeamId sql_like teamId
    {| page := pg; page_size := sz; name := other; nickname := None |} w.
Proof.
  repeat split; reflexivity.
Qed.

(** ** The player cache between calls *)

(** X13. Once a call with both filters has filled the cache, every
    call with both filters made before the entry's deadline is answered
    from the cache without a store query, whatever its own filter values
    and whatever the tables hold by then: it returns the rows that the
    first call's filters selected in the first call's table. *)
Theorem findAllPlayers_serves_first_result (sql_like : string -> string -> bool)
        (query query' : PaginationQueryDto) (w w2 : World) :
  truthy (name query) = true -> truthy (nickname query) = true ->
  truthy (name query') = true -> truthy (nickname query') = true ->
  cache_lookup "searchAllPlayers" w = None ->
  cache w2 = cache (snd (findAllPlayers sql_like query w)) ->
  now w2 < now w + 1000 * 60 * 5 ->
  findAllPlayers sql_like query' w2 =
  (Return (CachedPlayers (List.filter (wanted sql_like query) (players w))),
   emit (EConsoleLog "=========== cache hit! ===========")
        (emit (ECacheGet "searchAllPlayers") w2)).
Proof.
  intros Hn Hk Hn' Hk' Hmiss Hcache Hnow.
  rewrite (findAllPlayers_miss sql_like query w Hn Hk Hmiss) in Hcache.
  cbv zeta in Hcache. cbn [snd cache with_cache] in Hcache.
  apply findAllPlayers_hit; [assumption..|].
  unfold cache_lookup. rewrite Hcache, lookup_insert_eq.
  unfold live. cbn [entry_expires entry_value].
  destruct (Z.leb_spec (now w2) (now w + 1000 * 60 * 5)); [|lia].
  rewrite select_unpaged. reflexivity.
Qed.

Lemma findAllPlayers_serves_first_result_witness :
  findAllPlayers like_bin query_z_z
    (advance 1000 (snd (findAllPlayers like_bin query_a_b league))) =
  (Return (CachedPlayers (List.filter (wanted like_bin query_a_b) (players league))),
   emit (EConsoleLog "=========== cache hit! ===========")
        (emit (ECacheGet "searchAllPlayers")
              (advance 1000 (snd (findAllPlayers like_bin query_a_b league))))).
Proof.
  refine (findAllPlayers_serves_first_result like_bin query_a_b query_z_z league
            (advance 1000 (snd (findAllPlayers like_bin query_a_b league)))
            eq_refl eq_refl eq_refl eq_refl _ eq_refl _).
  - vm_compute. reflexivity.
  - vm_compute. reflexivity.
Defined.

(** X14. Once more than the five minutes have passed since the entry
    was written, a call with both filters finds no live entry: it
    queries the player table again with its own filters, returns those
    rows and caches them under the same key with a new five-minute
    deadline. *)
Theorem findAllPlayers_refreshes_after_ttl (sql_like : string -> string -> bool)
        (query query' : PaginationQueryDto) (w w2 : World) :
  truthy (name query) = true -> truthy (nickname query) = true ->
  truthy (name query') = true -> truthy (nickname query') = true ->
  cache_lookup "searchAllPlayers" w = None ->
  cache w2 = cache (snd (findAllPlayers sql_like query w)) ->
  now w + 1000 * 60 * 5 < now w2 ->
  fst (findAllPlayers sql_like query' w2) =
    Return (CachedPlayers (List.filter (wanted sql_like query') (players w2)))
  /\ calls_since w2 (snd (findAllPlayers sql_like query' w2)) =
     [ ECacheGet "searchAllPlayers";
       EPlayerGetMany (add_filters query' createQueryBuilder);
       ECacheSet "searchAllPlayers"
         (CachedPlayers (List.filter (wanted sql_like query') (players w2)))
         (Some (1000 * 60 * 5)) ]
  /\ cache_lookup "searchAllPlayers" (snd (findAllPlayers sql_like query' w2)) =
     Some (CachedPlayers (List.filter (wanted sql_like query') (players w2))).
Proof.
  intros Hn Hk Hn' Hk' Hmiss Hcache Hnow.
  rewrite (findAllPlayers_miss sql_like query w Hn Hk Hmiss) in Hcache.
  cbv zeta in Hcache. cbn [snd cache with_cache] in Hcache.
  assert (Hmiss2 : cache_lookup "searchAllPlayers" w2 = None).
  { unfold cache_lookup. rewrite Hcache, lookup_insert_eq.
    unfold live. cbn [entry_expires].
    destruct (Z.leb_spec (now w2) (now w + 1000 * 60 * 5)); [lia | reflexivity]. }
  rewrite (findAllPlayers_miss sql_like query' w2 Hn' Hk' Hmiss2). cbv zeta.
  rewrite select_unpaged. cbn [fst snd]. split; [reflexivity|]. split.
  - unfold calls_since. cbn [trace with_cache emit].
    rewrite <- !app_assoc. apply drop_app_length.
  - unfold cache_lookup. cbn [cache with_cache now emit].
    rewrite lookup_insert_eq. unfold live. cbn [entry_expires entry_value].
    destruct (Z.leb_spec (now w2) (now w2 + 1000 * 60 * 5)); [reflexivity | lia].
Qed.

Lemma findAllPlayers_refreshes_after_ttl_witness :
  let w2 := advance 300001 (snd (findAllPlayers like_bin query_a_b league)) in
  fst (findAllPlayers like_bin query_z_z w2) =
    Return (CachedPlayers (List.filter (wanted like_bin query_z_z) (players w2)))
  /\ calls_since w2 (snd (findAllPlayers like_bin query_z_z w2)) =
     [ ECacheGet "searchAllPlayers";
       EPlayerGetMany (add_filters query_z_z createQueryBuilder);
       ECacheSet "searchAllPlayers"
         (CachedPlayers (List.filter (wanted like_bin query_z_z) (players w2)))
         (Some (1000 * 60 * 5)) ]
  /\ cache_lookup "searchAllPlayers" (snd (findAllPlayers like_bin query_z_z w2)) =
     Some (CachedPlayers (List.filter (wanted like_bin query_z_z) (players w2))).
Proof.
  refine (findAllPlayers_refreshes_after_ttl like_bin query_a_b query_z_z league
            (advance 300001 (snd (findAllPlayers like_bin query_a_b league)))
            eq_refl eq_refl eq_refl eq_refl _ eq_refl _).
  - vm_compute. reflexivity.
  - vm_compute. reflexivity.
Defined.

(** ** Writes and the cache *)

(** X15. No write path touches the cache: whatever the arguments and
    whatever the outcome, [create], [update] and [delete] leave every
    cache entry and the clock as they were, so nothing they change is
    ever evicted or refreshed by them. *)
Theorem writes_keep_cache (parse : string -> option (list CsvRow))
        (file : MulterFile) (id : Z) (dto : UpdateTeamDto) (w : World) :
  (cache (snd (create parse file w)) = cache w
   /\ now (snd (create parse file w)) = now w)
  /\ (cache (snd (update id dto w)) = cache w
      /\ now (snd (update id dto w)) = now w)
  /\ (cache (snd (delete id w)) = cache w
      /\ now (snd (delete id w)) = now w).
Proof.
  split; [|split].
  - unfold create. destruct (endsWith (originalname file) ".csv"); cbn [negb];
      [|split; reflexivity].
    unfold mbind, promise_bind, try_catch, papa_parse.
    destruct (parse (toString (buffer file))) as [data|]; [|split; reflexivity].
    rewrite validate_spec. destruct (forallb row_ok data); [|split; reflexivity].
    unfold team_save.
    destruct (new_rows _ _); split; reflexivity.
  - unfold update, verifyTeamById, mbind, promise_bind, team_findOneBy, team_update.
    destruct (List.find _ _); [|split; reflexivity].
    cbn. destruct (no_values dto); split; reflexivity.
  - unfold delete, verifyTeamById, mbind, promise_bind, team_findOneBy.
    destruct (List.find _ _); split; reflexivity.
Qed.

(** X16. Statistics computed once are served while their entry lives:
    after a call that missed the cache, a call in any later world whose
    cache is the one that call left (with any tables, for instance after
    imports, updates or deletes) returns the same rows and makes the
    cache read as its only call, at any later clock when the cache store
    has no default time-to-live, and otherwise as long as the default
    has not been exceeded. *)
Theorem getTeamStats_served_from_cache (w w2 : World) :
  cache_lookup "teamStats" w = None ->
  cache w2 = cache (snd (getTeamStats w)) ->
  cache_ttl w = 0 \/ now w2 <= now w + cache_ttl w ->
  getTeamStats w2 = (fst (getTeamStats w), emit (ECacheGet "teamStats") w2).
Proof.
  intros Hmiss Hcache Hlive. rewrite (getTeamStats_miss w Hmiss) in *.
  cbn [fst snd cache with_cache] in *.
  apply getTeamStats_hit. unfold cache_lookup.
  rewrite Hcache, lookup_insert_eq. unfold live, deadline_of.
  cbn [entry_expires entry_value].
  destruct (Z.eqb_spec (cache_ttl w) 0) as [E|N]; [reflexivity|].
  cbn [entry_expires].
  destruct (Z.leb_spec (now w2) (now w + cache_ttl w)); [reflexivity | lia].
Qed.

Lemma getTeamStats_served_from_cache_witness :
  let w2 := advance 86400000
              (snd (create (fun _ => Some two_rows) (file_named "teams.csv")
                           (snd (getTeamStats small_league)))) in
  getTeamStats w2 = (fst (getTeamStats small_league), emit (ECacheGet "teamStats") w2).
Proof.
  refine (getTeamStats_served_from_cache small_league
            (advance 86400000
               (snd (create (fun _ => Some two_rows) (file_named "teams.csv")
                            (snd (getTeamStats small_league))))) _ _ _).
  - vm_compute. reflexivity.
  - vm_compute. reflexivity.
  - left. reflexivity.
Defined.

Example stats_served_within_default_ttl :
  getTeamStats (advance 5 (snd (getTeamStats small_league_ttl5))) =
  (fst (getTeamStats small_league_ttl5),
   emit (ECacheGet "teamStats") (advance 5 (snd (getTeamStats small_league_ttl5)))).
Proof. vm_compute. reflexivity. Qed.

(** ** Pages of one team's players *)

Lemma select_paged (sql_like : string -> string -> bool) (teamId p sz : Z)
      (query : PaginationQueryDto) (rows : list Player.t) :
  select sql_like
    (add_filters query
       (take_ sz (skip ((p - 1) * sz) (where_ (TeamIdEq teamId) createQueryBuilder))))
    rows
  = take (Z.to_nat sz)
      (drop (Z.to_nat ((p - 1) * sz))
         (List.filter (wanted_in_team sql_like teamId query) rows)).
Proof.
  unfold select. rewrite add_filters_skip, add_filters_take.
  cbn [qb_skip qb_take take_ skip where_]. f_equal. f_equal.
  apply filter_ext. intros r. rewrite add_filters_where.
  cbn [qb_where take_ skip where_ forallb holds]. rewrite andb_true_r. reflexivity.
Qed.

Lemma page_rows (sql_like : string -> string -> bool) (teamId p sz : Z)
      (query : PaginationQueryDto) (w : World) :
  fst (findPlayersByTeamId sql_like teamId (with_page p sz query) w) =
  Return (take (Z.to_nat sz)
            (drop (Z.to_nat ((p - 1) * sz))
               (List.filter (wanted_in_team sql_like teamId query) (players w)))).
Proof.
  unfold findPlayersByTeamId, getMany. cbn [fst with_page page page_size default].
  rewrite select_paged. reflexivity.
Qed.

Lemma take_app_take_drop {A : Type} (n m : nat) (l : list A) :
  take n l ++ take m (drop n l) = take (n + m) l.
Proof.
  revert l. induction n as [|n IH]; intros l; [reflexivity|].
  destruct l as [|x l]; simpl.
  - destruct m; reflexivity.
  - f_equal. apply IH.
Qed.

(** X17. Consecutive pages are adjacent: over an unchanged world and
    for a positive page and page size, the rows of page [p] followed by
    the rows of page [p + 1] are the [2 * page_size] matching rows that
    come after the first [(p - 1) * page_size], with no row repeated or
    left out between the two pages. *)
Theorem pages_are_adjacent (sql_like : string -> string -> bool)
        (teamId p sz : Z) (query : PaginationQueryDto) (w : World) :
  1 <= p ->
  1 <= sz ->
  exists r1 r2,
    fst (findPlayersByTeamId sql_like teamId (with_page p sz query) w) = Return r1
    /\ fst (findPlayersByTeamId sql_like teamId (with_page (p + 1) sz query) w)
       = Return r2
    /\ r1 ++ r2 =
       take (Z.to_nat (2 * sz))
         (drop (Z.to_nat ((p - 1) * sz))
            (List.filter (wanted_in_team sql_like teamId query) (players w))).
Proof.
  intros Hp Hsz. eexists. eexists.
  split; [apply page_rows|]. split; [apply page_rows|].
  set (l := List.filter _ _).
  replace (Z.to_nat ((p + 1 - 1) * sz))
    with (Z.to_nat ((p - 1) * sz) + Z.to_nat sz)%nat by nia.
  rewrite <- drop_drop, take_app_take_drop. f_equal. lia.
Qed.

Lemma pages_are_adjacent_witness :
  exists r1 r2,
    fst (findPlayersByTeamId like_bin 1 (with_page 1 3 no_filter) league) = Return r1
    /\ fst (findPlayersByTeamId like_bin 1 (with_page (1 + 1) 3 no_filter) league)
       = Return r2
    /\ r1 ++ r2 =
       take (Z.to_nat (2 * 3))
         (drop (Z.to_nat ((1 - 1) * 3))
            (List.filter (wanted_in_team like_bin 1 no_filter) (players league))).
Proof.
  apply (pages_are_adjacent like_bin 1 1 3 no_filter league); lia.
Defined.

(** X18. A page that starts at or beyond the number of matching rows
    is empty: the call returns no row, it does not fail and it does not
    wrap around. *)
Theorem page_past_the_end (sql_like : string -> string -> bool)
        (teamId p sz : Z) (query : PaginationQueryDto) (w : World) :
  1 <= p ->
  1 <= sz ->
  Z.of_nat (length (List.filter (wanted_in_team sql_like teamId query) (players w)))
    <= (p - 1) * sz ->
  fst (findPlayersByTeamId sql_like teamId (with_page p sz query) w) = Return [].
Proof.
  intros Hp Hsz Hlen. rewrite page_rows. rewrite drop_ge by lia.
  rewrite take_nil. reflexivity.
Qed.

Lemma page_past_the_end_witness :
  fst (findPlayersByTeamId like_bin 1 (with_page 3 5 no_filter) league) = Return [].
Proof.
  apply (page_past_the_end like_bin 1 3 5 no_filter league); [lia | lia |].
  vm_compute. discriminate.
Defined.

(** ** What the methods never do *)

Lemma dtos_complete (data : list CsvRow) :
  forallb row_ok data = true ->
  Forall (fun d => isNil (dto_name d) = false /\ isNil (dto_description d) = false)
         (map createTeamDto data).
Proof.
  induction data as [|r data IH]; simpl; intros Hok; constructor.
  - apply andb_true_iff in Hok as [Hr _]. unfold row_ok in Hr.
    apply andb_true_iff in Hr as [Hn Hd]. cbn [createTeamDto dto_name dto_description].
    split; [destruct (isNil (prop r "name")) | destruct (isNil (prop r "description"))];
      (reflexivity || discriminate).
  - apply IH. apply andb_true_iff in Hok. tauto.
Qed.

(** X19. [create] never hands an incomplete entity to the store:
    whatever the upload and the parser, every save it issues carries
    only entities whose [name] and [description] are both non-nil, and
    it issues at most one save, as its last call. *)
Theorem create_saves_only_complete_rows (parse : string -> option (list CsvRow))
        (file : MulterFile) (w : World) (dtos : list CreateTeamDto) :
  In (ETeamSave dtos) (calls_since w (snd (create parse file w))) ->
  Forall (fun d => isNil (dto_name d) = false /\ isNil (dto_description d) = false) dtos
  /\ calls_since w (snd (create parse file w)) =
     [EParse (toString (buffer file)); ETeamSave dtos].
Proof.
  unfold create, calls_since.
  destruct (endsWith (originalname file) ".csv"); cbn [negb].
  - unfold mbind, promise_bind, try_catch, papa_parse.
    destruct (parse (toString (buffer file))) as [data|].
    + rewrite validate_spec. destruct (forallb row_ok data) eqn:Hok.
      * assert (Htr : drop (length (trace w))
                  (trace (snd (team_save (map createTeamDto data)
                                (emit (EParse (toString (buffer file))) w))))
                = [EParse (toString (buffer file)); ETeamSave (map createTeamDto data)]).
        { unfold team_save. destruct (new_rows _ _); cbn [snd trace with_teams emit];
            apply drop_trace_2. }
        rewrite Htr. intros [E|[E|[]]]; [discriminate|].
        injection E as <-. split; [now apply dtos_complete | reflexivity].
      * cbn [snd trace emit throw]. rewrite drop_trace_1.
        intros [E|[]]. discriminate.
    + cbn [snd trace emit throw]. rewrite drop_trace_1.
      intros [E|[]]. discriminate.
  - cbn [snd throw]. rewrite drop_all. intros [].
Qed.

Lemma create_saves_only_complete_rows_witness :
  Forall (fun d => isNil (dto_name d) = false /\ isNil (dto_description d) = false)
         (map createTeamDto two_rows)
  /\ calls_since team_world
       (snd (create (fun _ => Some two_rows) (file_named "teams.csv") team_world)) =
     [EParse (toString (buffer (file_named "teams.csv")));
      ETeamSave (map createTeamDto two_rows)].
Proof.
  apply (create_saves_only_complete_rows (fun _ => Some two_rows)
           (file_named "teams.csv") team_world (map createTeamDto two_rows)).
  vm_compute. right. left. reflexivity.
Defined.

(** X20. The reading methods are read-only on the relational store:
    for every argument and every world, [findAll], [findOne],
    [findAllPlayers], [findPlayersByTeamId] and [getTeamStats] leave the
    team, player and support-message tables and the id sequence as they
    were, also when they throw or fill the cache. *)
Theorem reads_keep_tables (sql_like : string -> string -> bool)
        (id teamId : Z) (query : PaginationQueryDto) (w : World) :
  tables (snd (findAll w)) = tables w
  /\ tables (snd (findOne id w)) = tables w
  /\ tables (snd (findAllPlayers sql_like query w)) = tables w
  /\ tables (snd (findPlayersByTeamId sql_like teamId query w)) = tables w
  /\ tables (snd (getTeamStats w)) = tables w.
Proof.
  split; [reflexivity|]. split; [|split; [|split; [reflexivity|]]].
  - unfold findOne, verifyTeamById, mbind, promise_bind, team_findOneBy.
    destruct (List.find _ _); reflexivity.
  - unfold findAllPlayers, mbind, promise_bind, cache_get.
    destruct (truthy (name query) && truthy (nickname query)); [|reflexivity].
    destruct (cache_lookup "searchAllPlayers" w); reflexivity.
  - unfold getTeamStats, mbind, promise_bind, cache_get.
    destruct (cache_lookup "teamStats" w); reflexivity.
Qed.

(** ** The controller *)

(** X21. The two player endpoints of the controller add one banner
    line and nothing else: each prints its banner as its first call,
    then makes exactly the calls of the service method, returns what the
    service method returns on the same world and leaves the same tables
    and the same cache. *)
Theorem controller_player_endpoints (sql_like : string -> string -> bool)
        (teamId : Z) (query : PaginationQueryDto) (w : World) :
  (fst (TeamController.findAllPlayers sql_like query w)
   = fst (findAllPlayers sql_like query w)
   /\ tables (snd (TeamController.findAllPlayers sql_like query w))
      = tables (snd (findAllPlayers sql_like query w))
   /\ cache (snd (TeamController.findAllPlayers sql_like query w))
      = cache (snd (findAllPlayers sql_like query w))
   /\ calls_since w (snd (TeamController.findAllPlayers sql_like query w))
      = EConsoleLog "=============== findAllPlayers ==============="
        :: calls_since w (snd (findAllPlayers sql_like query w)))
  /\ (fst (TeamController.findPlayersByTeamId sql_like teamId query w)
      = fst (findPlayersByTeamId sql_like teamId query w)
      /\ tables (snd (TeamController.findPlayersByTeamId sql_like teamId query w))
         = tables (snd (findPlayersByTeamId sql_like teamId query w))
      /\ cache (snd (TeamController.findPlayersByTeamId sql_like teamId query w))
         = cache (snd (findPlayersByTeamId sql_like teamId query w))
      /\ calls_since w (snd (TeamController.findPlayersByTeamId sql_like teamId query w))
         = EConsoleLog "=============== findPlayersByTeamId ==============="
           :: calls_since w (snd (findPlayersByTeamId sql_like teamId query w))).
Proof.
  split.
  - unfold TeamController.findAllPlayers, findAllPlayers, console_log, perform,
      mbind, promise_bind, cache_get, getMany, cache_set, mret, promise_ret.
    destruct (truthy (name query) && truthy (nickname query)).
    2: { unfold calls_since. cbn [fst snd tables cache trace teams team_seq players
                                  supportMessages emit with_cache now].
         rewrite <- ?app_assoc, ?drop_app_length. repeat split; reflexivity. }
    cbv beta. rewrite !cache_lookup_emit.
    destruct (cache_lookup "searchAllPlayers" w);
        unfold calls_since; cbn [fst snd tables cache trace teams team_seq players
                                 supportMessages emit with_cache now];
        rewrite <- ?app_assoc, ?drop_app_length; repeat split; reflexivity.
  - unfold TeamController.findPlayersByTeamId, findPlayersByTeamId, console_log,
      perform, mbind, promise_bind, getMany.
    unfold calls_since. cbn [fst snd tables cache trace teams team_seq players
                             supportMessages emit with_cache now].
    rewrite <- ?app_assoc, ?drop_app_length. repeat split; reflexivity.
Qed.
